(** * newrelic-client-go: the alert-policy and API-access-key clients

  A shallow embedding of [pkg/alerts/policies.go] and
  [pkg/apiaccess/keys.go].  Every method of the two resource clients is a
  thin wrapper around the HTTP / NerdGraph transport: it builds a request,
  lets the transport perform it, and reads the decoded response.  The
  transport, the pager and JSON decoding are external collaborators; they
  appear here as interfaces (type classes) that the client methods are
  written against, and as a scripted instance that replays a list of
  canned replies and records every request it receives.

  Go values are modelled as follows.
  - [int] is [Z]: the clients only store, compare and print identifiers,
    they never do arithmetic on them.
  - [string] is [string].
  - a slice [[]T] is [option (list T)], [None] being the [nil] slice, since
    the code distinguishes [nil] from an empty slice ([resp.Errors != nil]).
  - a pointer that is only tested against [nil] and read is an [option].
  - a method returning [(T, error)] returns a pair whose second component
    is [option error], [None] being the [nil] error.
  - the two [for] loops that follow pagination links have no bound of their
    own, so they carry a fuel argument; [None] means the fuel ran out. *)

From Stdlib Require Import ZArith List String Ascii Bool Lia.
From Stdlib Require Import DecimalString DecimalPos DecimalZ.
Import ListNotations.
Local Open Scope string_scope.
Local Open Scope list_scope.

(* ================================================================== *)
(** * Go runtime notions used by the clients *)

Module Go.

(** A slice: [None] is [nil]. *)
Definition slice (T : Type) : Type := option (list T).

Definition elems {T} (s : slice T) : list T :=
  match s with
  | None => []
  | Some l => l
  end.

Definition len {T} (s : slice T) : nat := List.length (elems s).

(** [append(s, t...)]: appending nothing to [nil] is [nil]; every other
    result is a non-nil slice holding the elements of [s] and then [t]. *)
Definition append {T} (s t : slice T) : slice T :=
  match s, elems t with
  | None, [] => None
  | _, _ => Some (elems s ++ elems t)
  end.

(** [interface{}]: either [nil] or a value boxed with its dynamic type. *)
Definition any : Type := option { T : Type & T }.

Definition box {T : Type} (v : T) : any := Some (existT (fun X : Type => X) T v).

(** The [error] values that occur: [errors.New] strings, the not-found
    error of [pkg/errors], and whatever else a transport reports
    (a status code and a text). *)
Inductive error : Type :=
| errorString (s : string)
| NotFound (s : string)
| TransportError (code : Z) (s : string).

(** [errors.New]. *)
Definition errors_New (s : string) : error := errorString s.

(** The [(value, error)] pair of a call into the transport. *)
Inductive result (A : Type) : Type :=
| Ok (a : A)
| Err (e : error).
Arguments Ok {A} a.
Arguments Err {A} e.

(** [fmt.Sprintf("%d", n)]. *)
Definition itoa (n : Z) : string := NilZero.string_of_int (Z.to_int n).

End Go.

Import Go.

(** Modelled from the spec: [pkg/errors] is not among the sources; the spec
    says that a lookup without a match yields "a distinct not-found error".
    [NewNotFoundf] is only ever called with a text that ends in one [%d]. *)
Definition NewNotFoundf_d (prefix : string) (n : Z) : error :=
  NotFound (prefix ++ itoa n)%string.

(** Whether a returned error is of the not-found kind. *)
Definition IsNotFound (err : option error) : bool :=
  match err with
  | Some (NotFound _) => true
  | _ => false
  end.

(* ================================================================== *)
(** * The transport ([internal/http]) *)

Module http.

Inductive Method : Type := GET | POST | PUT | DELETE.

(** What a transport is asked to do: a REST call with its URL, query
    parameters and request body, or a GraphQL call with its query text and
    variable map.  The variable maps are written as association lists in
    the order of the Go map literal. *)
Inductive Call : Type :=
| REST (m : Method) (url : string) (params : any) (reqBody : any)
| GraphQL (query : string) (vars : list (string * any))
| NerdGraph (query : string) (vars : list (string * any)).

(** The client, whose methods are taken as given.  [World] is everything
    outside the program that a request can change or depend on; [Body] is a
    raw response body and [Response] the HTTP response the pager reads.
    Each method either fails with an error or yields the body that is then
    decoded into the caller's response struct. *)
Class Client : Type := {
  World : Type;
  Body : Type;
  Response : Type;
  Get : string -> any -> World -> World * result (Response * Body);
  Post : string -> any -> any -> World -> World * result (Response * Body);
  Put : string -> any -> any -> World -> World * result (Response * Body);
  Delete : string -> any -> World -> World * result (Response * Body);
  Query : string -> list (string * any) -> World -> World * result Body;
  NerdGraphQuery : string -> list (string * any) -> World -> World * result Body
}.

(** JSON decoding of a body into a response struct of type [T] that starts
    out zero-valued. *)
Class Unmarshal `{Client} (T : Type) : Type := unmarshal : Body -> T.

(** Modelled from the spec: the pager "extracts a next page URL" from a
    response; [Next] is the one field of the paging metadata that is read. *)
Record Paging : Type := { Next : string }.

Class Pager `{Client} : Type := Parse : Response -> Paging.

(** Modelled from the spec: [GraphQLErrorResponse] is not among the sources;
    it holds the "GraphQL [errors] array" of a NerdGraph response.  The
    entries are kept abstract and its [Error()] method, which formats them,
    is taken as given by the client that embeds the struct. *)
Record GraphQLErrorResponse (GraphQLError : Type) : Type :=
  { Errors : slice GraphQLError }.
Arguments Errors {GraphQLError} _.

End http.

Import http.

(* ================================================================== *)
(** * [pkg/alerts/policies.go] *)

Module alerts.

(** [IncidentPreferenceType] specifies rollup settings for alert policies. *)
Definition IncidentPreferenceType : Type := string.

Definition IncidentPreferenceTypes_PerPolicy : IncidentPreferenceType := "PER_POLICY".
Definition IncidentPreferenceTypes_PerCondition : IncidentPreferenceType := "PER_CONDITION".
Definition IncidentPreferenceTypes_PerConditionAndTarget : IncidentPreferenceType :=
  "PER_CONDITION_AND_TARGET".

(** Modelled from the spec: [serialization.EpochTime] is not among the
    sources; the spec only says that a policy carries "timestamps".  The
    clients never look inside one; it is taken as a number of seconds. *)
Definition EpochTime : Type := Z.

(** Struct fields are named [Struct_Field], since several structs share
    field names. *)
Record Policy : Type := {
  Policy_ID : Z;
  Policy_IncidentPreference : IncidentPreferenceType;
  Policy_Name : string;
  Policy_CreatedAt : option EpochTime;
  Policy_UpdatedAt : option EpochTime
}.

Record QueryPolicy : Type := {
  QueryPolicy_ID : Z;
  QueryPolicy_IncidentPreference : IncidentPreferenceType;
  QueryPolicy_Name : string;
  QueryPolicy_AccountID : Z
}.

(** [QueryPolicy{}]. *)
Definition QueryPolicy_zero : QueryPolicy :=
  {| QueryPolicy_ID := 0; QueryPolicy_IncidentPreference := "";
     QueryPolicy_Name := ""; QueryPolicy_AccountID := 0 |}.

Record QueryPolicyInput : Type := {
  QueryPolicyInput_IncidentPreference : IncidentPreferenceType;
  QueryPolicyInput_Name : string
}.

Record QueryPolicyCreateInput : Type :=
  { QueryPolicyCreateInput_QueryPolicyInput : QueryPolicyInput }.

Record QueryPolicyUpdateInput : Type :=
  { QueryPolicyUpdateInput_QueryPolicyInput : QueryPolicyInput }.

Record AlertsPoliciesSearchCriteriaInput : Type :=
  { AlertsPoliciesSearchCriteriaInput_IDs : slice Z }.

Record ListPoliciesParams : Type := { ListPoliciesParams_Name : string }.

(** ** Request and response bodies *)

Record alertPoliciesResponse : Type := { Policies : slice Policy }.

Record alertPolicyResponse : Type := { alertPolicyResponse_Policy : Policy }.

Record alertPolicyRequestBody : Type := { alertPolicyRequestBody_Policy : Policy }.

(** The nested anonymous structs [Actor.Account.Alerts.PoliciesSearch] are
    flattened: each level has a single field. *)
Record alertQueryPolicySearchResponse : Type := {
  PoliciesSearch_NextCursor : option string;
  PoliciesSearch_Policies : slice QueryPolicy;
  PoliciesSearch_TotalCount : Z
}.

Record alertQueryPolicyCreateResponse : Type :=
  { alertQueryPolicyCreateResponse_QueryPolicy : QueryPolicy }.

Record alertQueryPolicyUpdateResponse : Type :=
  { alertQueryPolicyUpdateResponse_QueryPolicy : QueryPolicy }.

(** [Actor.Account.Alerts.Policy], flattened. *)
Record alertQueryPolicyResponse : Type :=
  { Actor_Account_Alerts_Policy : QueryPolicy }.

(** [AlertsPolicyDelete.ID], flattened. *)
Record alertQueryPolicyDeleteRespose : Type :=
  { AlertsPolicyDelete_ID : Z }.

(** ** GraphQL texts *)

Definition graphqlAlertPolicyFields : string :=
    "
						id
						name
						incidentPreference
						accountId
	".

Definition alertPolicyQueryPolicy : string :=
    ("query($accountID: Int!, $policyID: ID!) {
		actor {
			account(id: $accountID) {
				alerts {
					policy(id: $policyID) {" ++ graphqlAlertPolicyFields ++ "
					}
				}
			}
		}
	}")%string.

Definition alertsPolicyQuerySearch : string :=
    "query($accountID: Int!, $cursor: String, $criteria: AlertsPoliciesSearchCriteriaInput) {
		actor {
			account(id: $accountID) {
				alerts {
					policiesSearch(cursor: $cursor, searchCriteria: $criteria) {
						nextCursor
						totalCount
						policies {
							accountId
							id
							incidentPreference
							name
						}
					}
				}
			}
		}
	}".

Definition alertsPolicyCreatePolicy : string :=
    ("mutation CreatePolicy($accountID: Int!, $policy: AlertsPolicyInput!){
		alertsPolicyCreate(accountId: $accountID, policy: $policy) {" ++ graphqlAlertPolicyFields ++ "
		} }")%string.

Definition alertsPolicyUpdatePolicy : string :=
    ("mutation UpdatePolicy($accountID: Int!, $policyID: ID!, $policy: AlertsPolicyUpdateInput!){
			alertsPolicyUpdate(accountId: $accountID, id: $policyID, policy: $policy) {" ++ graphqlAlertPolicyFields ++ "
			}
		}")%string.

Definition alertPolicyDeletePolicy : string :=
    "mutation DeletePolicy($accountID: Int!, $policyID: ID!){
		alertsPolicyDelete(accountId: $accountID, id: $policyID) {
			id
		} }".

(** ** The client *)

(** The [Alerts] struct: its transport client and its pager, together with
    the JSON decoders of the response structs the methods declare. *)
Class Alerts : Type := {
  client :: Client;
  pager :: Pager;
  json_alertPoliciesResponse :: Unmarshal alertPoliciesResponse;
  json_alertPolicyResponse :: Unmarshal alertPolicyResponse;
  json_alertQueryPolicySearchResponse :: Unmarshal alertQueryPolicySearchResponse;
  json_alertQueryPolicyCreateResponse :: Unmarshal alertQueryPolicyCreateResponse;
  json_alertQueryPolicyUpdateResponse :: Unmarshal alertQueryPolicyUpdateResponse;
  json_alertQueryPolicyResponse :: Unmarshal alertQueryPolicyResponse;
  json_alertQueryPolicyDeleteRespose :: Unmarshal alertQueryPolicyDeleteRespose
}.

Section Methods.
Context {a : Alerts}.

(** What a method yields: the world after its requests and the Go
    result pair. *)
Definition returns (T : Type) : Type := World * (T * option error).

(** The [for nextURL != ""] loop of [ListPolicies].  [&params] is sent
    with every request, also with those to a [Next] URL. *)
Fixpoint ListPolicies_for (fuel : nat) (params : option ListPoliciesParams)
    (nextURL : string) (alertPolicies : slice Policy) (w : World)
    : option (returns (slice Policy)) :=
  if (nextURL =? "")%string then Some (w, (alertPolicies, None))
  else
    match fuel with
    | O => None
    | S fuel' =>
        match Get nextURL (box params) w with
        | (w', Err err) => Some (w', (None, Some err))
        | (w', Ok (resp, body)) =>
            let response : alertPoliciesResponse := unmarshal body in
            let alertPolicies' := append alertPolicies (Policies response) in
            let paging := Parse resp in
            ListPolicies_for fuel' params (Next paging) alertPolicies' w'
        end
    end.

(** [ListPolicies] returns a list of Alert Policies for a given account. *)
Definition ListPolicies (fuel : nat) (params : option ListPoliciesParams)
    (w : World) : option (returns (slice Policy)) :=
  ListPolicies_for fuel params "/alerts_policies.json" (Some []) w.

(** The [range] loop of [GetPolicy]: the first policy with the given ID,
    if there is one. *)
Fixpoint GetPolicy_range (id : Z) (policies : list Policy) : option Policy :=
  match policies with
  | [] => None
  | policy :: rest =>
      if (Policy_ID policy =? id)%Z then Some policy
      else GetPolicy_range id rest
  end.

(** [GetPolicy] returns a specific alert policy by ID for a given account. *)
Definition GetPolicy (fuel : nat) (id : Z) (w : World)
    : option (returns (option Policy)) :=
  match ListPolicies fuel None w with
  | None => None
  | Some (w', (_, Some err)) => Some (w', (None, Some err))
  | Some (w', (policies, None)) =>
      match GetPolicy_range id (elems policies) with
      | Some policy => Some (w', (Some policy, None))
      | None =>
          Some (w', (None, Some (NewNotFoundf_d "no alert policy found for id " id)))
      end
  end.

(** [CreatePolicy] creates a new alert policy for a given account. *)
Definition CreatePolicy (policy : Policy) (w : World) : returns (option Policy) :=
  let reqBody := {| alertPolicyRequestBody_Policy := policy |} in
  match Post "/alerts_policies.json" None (box reqBody) w with
  | (w', Err err) => (w', (None, Some err))
  | (w', Ok (_, body)) =>
      let resp : alertPolicyResponse := unmarshal body in
      (w', (Some (alertPolicyResponse_Policy resp), None))
  end.

(** [UpdatePolicy] update an alert policy for a given account. *)
Definition UpdatePolicy (policy : Policy) (w : World) : returns (option Policy) :=
  let reqBody := {| alertPolicyRequestBody_Policy := policy |} in
  let url := ("/alerts_policies/" ++ itoa (Policy_ID policy) ++ ".json")%string in
  match Put url None (box reqBody) w with
  | (w', Err err) => (w', (None, Some err))
  | (w', Ok (_, body)) =>
      let resp : alertPolicyResponse := unmarshal body in
      (w', (Some (alertPolicyResponse_Policy resp), None))
  end.

(** [DeletePolicy] deletes an existing alert policy for a given account. *)
Definition DeletePolicy (id : Z) (w : World) : returns (option Policy) :=
  let url := ("/alerts_policies/" ++ itoa id ++ ".json")%string in
  match Delete url None w with
  | (w', Err err) => (w', (None, Some err))
  | (w', Ok (_, body)) =>
      let resp : alertPolicyResponse := unmarshal body in
      (w', (Some (alertPolicyResponse_Policy resp), None))
  end.

Definition CreatePolicyMutation (accountID : Z) (policy : QueryPolicyCreateInput)
    (w : World) : returns (option QueryPolicy) :=
  let vars := [("accountID", box accountID); ("policy", box policy)] in
  match Query alertsPolicyCreatePolicy vars w with
  | (w', Err err) => (w', (None, Some err))
  | (w', Ok body) =>
      let resp : alertQueryPolicyCreateResponse := unmarshal body in
      (w', (Some (alertQueryPolicyCreateResponse_QueryPolicy resp), None))
  end.

Definition UpdatePolicyMutation (accountID policyID : Z)
    (policy : QueryPolicyUpdateInput) (w : World) : returns (option QueryPolicy) :=
  let vars := [("accountID", box accountID); ("policyID", box policyID);
               ("policy", box policy)] in
  match Query alertsPolicyUpdatePolicy vars w with
  | (w', Err err) => (w', (None, Some err))
  | (w', Ok body) =>
      let resp : alertQueryPolicyUpdateResponse := unmarshal body in
      (w', (Some (alertQueryPolicyUpdateResponse_QueryPolicy resp), None))
  end.

(** [QueryPolicy] queries NerdGraph for a policy matching the given
    account ID and policy ID.  (Named [QueryPolicy_] here: the struct
    has the name.) *)
Definition QueryPolicy_ (accountID id : Z) (w : World) : returns (option QueryPolicy) :=
  let vars := [("accountID", box accountID); ("policyID", box id)] in
  match Query alertPolicyQueryPolicy vars w with
  | (w', Err err) => (w', (None, Some err))
  | (w', Ok body) =>
      let resp : alertQueryPolicyResponse := unmarshal body in
      (w', (Some (Actor_Account_Alerts_Policy resp), None))
  end.

(** *** [QueryPolicySearch]

    The method returns [[]*QueryPolicy]: pointers, so the cells they point to
    are part of the result.  [for _, p := range page] has one variable [p]
    for the whole [range] statement (the package predates per-iteration loop
    variables), and [&p] is appended at every iteration: all pointers taken
    from one page are the same address. *)

Definition ptr : Type := nat.

Definition heap : Type := list QueryPolicy.

Fixpoint store (h : heap) (p : ptr) (v : QueryPolicy) : heap :=
  match h, p with
  | [], _ => []
  | _ :: rest, O => v :: rest
  | x :: rest, S p' => x :: store rest p' v
  end.

Fixpoint QueryPolicySearch_range (p : ptr) (page : list QueryPolicy)
    (policies : slice ptr) (h : heap) : slice ptr * heap :=
  match page with
  | [] => (policies, h)
  | x :: rest =>
      QueryPolicySearch_range p rest (append policies (Some [p])) (store h p x)
  end.

(** The loop [for ok := true; ok; ok = nextCursor != nil]: the body runs
    once before the condition is first looked at. *)
Fixpoint QueryPolicySearch_for (fuel : nat) (accountID : Z)
    (params : AlertsPoliciesSearchCriteriaInput) (nextCursor : option string)
    (policies : slice ptr) (h : heap) (w : World)
    : option (returns (slice ptr * heap)) :=
  match fuel with
  | O => None
  | S fuel' =>
      let vars := [("accountID", box accountID); ("cursor", box nextCursor);
                   ("searchCriteria", box params)] in
      match Query alertsPolicyQuerySearch vars w with
      | (w', Err err) => Some (w', ((None, h), Some err))
      | (w', Ok body) =>
          let resp : alertQueryPolicySearchResponse := unmarshal body in
          let p := List.length h in
          let (policies', h') :=
            QueryPolicySearch_range p (elems (PoliciesSearch_Policies resp))
              policies (h ++ [QueryPolicy_zero]) in
          let nextCursor' := PoliciesSearch_NextCursor resp in
          match nextCursor' with
          | None => Some (w', ((policies', h'), None))
          | Some _ =>
              QueryPolicySearch_for fuel' accountID params nextCursor' policies' h' w'
          end
      end
  end.

(** [QueryPolicySearch] searches NerdGraph for policies. *)
Definition QueryPolicySearch (fuel : nat) (accountID : Z)
    (params : AlertsPoliciesSearchCriteriaInput) (w : World)
    : option (returns (slice ptr * heap)) :=
  QueryPolicySearch_for fuel accountID params None (Some []) [] w.

(** [DeletePolicyMutation] is the NerdGraph mutation to delete a policy given
    the account ID and the policy ID. *)
Definition DeletePolicyMutation (accountID id : Z) (w : World)
    : returns (option QueryPolicy) :=
  let policy := QueryPolicy_zero in
  let vars := [("accountID", box accountID); ("policyID", box id)] in
  match Query alertPolicyDeletePolicy vars w with
  | (w', Err err) => (w', (None, Some err))
  | (w', Ok body) =>
      let resp : alertQueryPolicyDeleteRespose := unmarshal body in
      (w', (Some policy, None))
  end.

End Methods.

End alerts.

(* ================================================================== *)
(** * [pkg/apiaccess/keys.go] *)

Module apiaccess.

(** [ApiAccessKey], as the struct kept in the comment at the head of
    [keys.go] gives it. *)
Record ApiAccessKey : Type := {
  ApiAccessKey_ID : string;
  ApiAccessKey_Key : string;
  ApiAccessKey_Name : string;
  ApiAccessKey_Notes : string;
  ApiAccessKey_Type : string;
  ApiAccessKey_AccountID : Z;
  ApiAccessKey_IngestType : string;
  ApiAccessKey_UserID : string
}.

(** Modelled from the spec: the generated types of the package are not among
    the sources.  A mutation error has a "type and message" (the [errors]
    selection of the queries below asks for [message] and [type]); both print
    as their text under [%v]. *)
Record ApiAccessKeyError : Type := {
  ApiAccessKeyError_Message : string;
  ApiAccessKeyError_Type : string
}.

(** Modelled from the spec: the [deletedKeys { id }] selection. *)
Record ApiAccessDeletedKey : Type := { ApiAccessDeletedKey_ID : string }.

(** Modelled from the spec: the result structs of the three mutations and of
    the search, with the fields the methods read. *)
Record ApiAccessCreateKeyResponse : Type := {
  CreatedKeys : slice ApiAccessKey;
  ApiAccessCreateKeyResponse_Errors : slice ApiAccessKeyError
}.

Record ApiAccessUpdateKeyResponse : Type := {
  UpdatedKeys : slice ApiAccessKey;
  ApiAccessUpdateKeyResponse_Errors : slice ApiAccessKeyError
}.

Record ApiAccessDeleteKeyResponse : Type := {
  DeletedKeys : slice ApiAccessDeletedKey;
  ApiAccessDeleteKeyResponse_Errors : slice ApiAccessKeyError
}.

Record ApiAccessKeySearchResult : Type := { Keys : slice ApiAccessKey }.

(** The input types of the package and the entries of a GraphQL [errors]
    array are only handed on to the transport; they stay abstract. *)
Class Schema : Type := {
  ApiAccessCreateInput : Type;
  ApiAccessUpdateInput : Type;
  ApiAccessDeleteInput : Type;
  ApiAccessKeySearchQuery : Type;
  ApiAccessKeyType : Type;
  GraphQLError : Type
}.

(** ** Response bodies *)

Record apiAccessKeyCreateResponse : Type :=
  { APIAccessCreateKeys : ApiAccessCreateKeyResponse }.

Record apiAccessKeyUpdateResponse : Type :=
  { APIAccessUpdateKeys : ApiAccessUpdateKeyResponse }.

(** [Actor.APIAccess.Key] flattened, and the embedded [GraphQLErrorResponse]. *)
Record apiAccessKeyGetResponse `{Schema} : Type := {
  Actor_APIAccess_Key : ApiAccessKey;
  apiAccessKeyGetResponse_GraphQLErrorResponse : GraphQLErrorResponse GraphQLError
}.

Record apiAccessKeySearchResponse `{Schema} : Type := {
  Actor_APIAccess_KeySearch : ApiAccessKeySearchResult;
  apiAccessKeySearchResponse_GraphQLErrorResponse : GraphQLErrorResponse GraphQLError
}.

Record apiAccessKeyDeleteResponse : Type :=
  { APIAccessDeleteKeys : ApiAccessDeleteKeyResponse }.

(** ** GraphQL texts *)

Definition graphqlAPIAccessKeyBaseFields : string :=
    "
		id
		key
		name
		notes
		type
		... on ApiAccessIngestKey {
			id
			name
			accountId
			ingestType
			key
			notes
			type
		}
		... on ApiAccessUserKey {
			id
			name
			accountId
			key
			notes
			type
			userId
		}
		... on ApiAccessKey {
			id
			name
			key
			notes
			type
		}".

Definition graphqlAPIAccessCreateKeyFields : string :=
    ("createdKeys {" ++ graphqlAPIAccessKeyBaseFields ++ "}")%string.

Definition graphqlAPIAccessUpdatedKeyFields : string :=
    ("updatedKeys {" ++ graphqlAPIAccessKeyBaseFields ++ "}")%string.

Definition graphqlAPIAccessKeyErrorFields : string :=
    "errors {
		  message
		  type
		  ... on ApiAccessIngestKeyError {
			id
			ingestErrorType: errorType
			accountId
			ingestType
			message
			type
		  }
		  ... on ApiAccessKeyError {
			message
			type
		  }
		  ... on ApiAccessUserKeyError {
			id
			accountId
			userErrorType: errorType
			message
			type
			userId
		  }
		}
	".

Definition apiAccessKeyCreateKeys : string :=
    ("mutation($keys: ApiAccessCreateInput!) {
			apiAccessCreateKeys(keys: $keys) {" ++ graphqlAPIAccessCreateKeyFields ++ graphqlAPIAccessKeyErrorFields ++ "
		}}")%string.

Definition apiAccessKeyGetKey : string :=
    ("query($id: ID!, $keyType: ApiAccessKeyType!) {
		actor {
			apiAccess {
				key(id: $id, keyType: $keyType) {" ++ graphqlAPIAccessKeyBaseFields ++ "}}}}")%string.

Definition apiAccessKeySearch : string :=
    ("query($query: ApiAccessKeySearchQuery!) {
		actor {
			apiAccess {
				keySearch(query: $query) {
					keys {" ++ graphqlAPIAccessKeyBaseFields ++ "}
				}}}}")%string.

Definition apiAccessKeyUpdateKeys : string :=
    ("mutation($keys: ApiAccessUpdateInput!) {
			apiAccessUpdateKeys(keys: $keys) {" ++ graphqlAPIAccessUpdatedKeyFields ++ graphqlAPIAccessKeyErrorFields ++ "
		}}")%string.

Definition apiAccessKeyDeleteKeys : string :=
    ("mutation($keys: ApiAccessDeleteInput!) {
			apiAccessDeleteKeys(keys: $keys) {
				deletedKeys {
					id
				}" ++ graphqlAPIAccessKeyErrorFields ++ "}}")%string.

(** ** The client *)

(** The [APIAccess] struct: its transport client; with it the types above,
    the [Error()] method of the embedded [GraphQLErrorResponse] and the JSON
    decoders of the response structs. *)
Class APIAccess : Type := {
  schema :: Schema;
  client :: Client;
  GraphQLErrorResponse_Error : GraphQLErrorResponse GraphQLError -> string;
  json_apiAccessKeyCreateResponse :: Unmarshal apiAccessKeyCreateResponse;
  json_apiAccessKeyUpdateResponse :: Unmarshal apiAccessKeyUpdateResponse;
  json_apiAccessKeyGetResponse :: Unmarshal apiAccessKeyGetResponse;
  json_apiAccessKeySearchResponse :: Unmarshal apiAccessKeySearchResponse;
  json_apiAccessKeyDeleteResponse :: Unmarshal apiAccessKeyDeleteResponse
}.

(** One line of the aggregated message: [fmt.Sprintf("%v: %v\n", e.Type, e.Message)]. *)
Definition Sprintf_line (e : ApiAccessKeyError) : string :=
  (ApiAccessKeyError_Type e ++ ": " ++ ApiAccessKeyError_Message e
     ++ String (ascii_of_nat 10) "")%string.

Fixpoint formatAPIAccessKeyMutationErrors_range (errorString : string)
    (errors : list ApiAccessKeyError) : string :=
  match errors with
  | [] => errorString
  | e :: rest =>
      formatAPIAccessKeyMutationErrors_range (errorString ++ Sprintf_line e)%string rest
  end.

Definition formatAPIAccessKeyMutationErrors (errors : slice ApiAccessKeyError) : string :=
  formatAPIAccessKeyMutationErrors_range "" (elems errors).

Section Methods.
Context {a : APIAccess}.

Definition returns (T : Type) : Type := World * (T * option error).

(** [CreateAPIAccessKeysMutation] create keys. You can create keys for
    multiple accounts at once. *)
Definition CreateAPIAccessKeysMutation (keys : ApiAccessCreateInput) (w : World)
    : returns (slice ApiAccessKey) :=
  let vars := [("keys", box keys)] in
  match NerdGraphQuery apiAccessKeyCreateKeys vars w with
  | (w', Err err) => (w', (None, Some err))
  | (w', Ok body) =>
      let resp : apiAccessKeyCreateResponse := unmarshal body in
      let errs := ApiAccessCreateKeyResponse_Errors (APIAccessCreateKeys resp) in
      if (0 <? len errs)%nat
      then (w', (None, Some (errors_New (formatAPIAccessKeyMutationErrors errs))))
      else (w', (CreatedKeys (APIAccessCreateKeys resp), None))
  end.

(** [GetAPIAccessKeyMutation] returns a single API access key. *)
Definition GetAPIAccessKeyMutation (keyID : string) (keyType : ApiAccessKeyType)
    (w : World) : returns (option ApiAccessKey) :=
  let vars := [("id", box keyID); ("keyType", box keyType)] in
  match NerdGraphQuery apiAccessKeyGetKey vars w with
  | (w', Err err) => (w', (None, Some err))
  | (w', Ok body) =>
      let resp : apiAccessKeyGetResponse := unmarshal body in
      match Errors (apiAccessKeyGetResponse_GraphQLErrorResponse resp) with
      | Some _ =>
          (w', (None, Some (errors_New (GraphQLErrorResponse_Error
                               (apiAccessKeyGetResponse_GraphQLErrorResponse resp)))))
      | None => (w', (Some (Actor_APIAccess_Key resp), None))
      end
  end.

(** [SearchAPIAccessKeys] returns the relevant keys based on search criteria.
    Returns keys are scoped to the current user. *)
Definition SearchAPIAccessKeys (params : ApiAccessKeySearchQuery) (w : World)
    : returns (slice ApiAccessKey) :=
  let vars := [("query", box params)] in
  match NerdGraphQuery apiAccessKeySearch vars w with
  | (w', Err err) => (w', (None, Some err))
  | (w', Ok body) =>
      let resp : apiAccessKeySearchResponse := unmarshal body in
      match Errors (apiAccessKeySearchResponse_GraphQLErrorResponse resp) with
      | Some _ =>
          (w', (None, Some (errors_New (GraphQLErrorResponse_Error
                               (apiAccessKeySearchResponse_GraphQLErrorResponse resp)))))
      | None => (w', (Keys (Actor_APIAccess_KeySearch resp), None))
      end
  end.

(** [UpdateAPIAccessKeyMutation] updates keys. You can update keys for
    multiple accounts at once. *)
Definition UpdateAPIAccessKeyMutation (keys : ApiAccessUpdateInput) (w : World)
    : returns (slice ApiAccessKey) :=
  let vars := [("keys", box keys)] in
  match NerdGraphQuery apiAccessKeyUpdateKeys vars w with
  | (w', Err err) => (w', (None, Some err))
  | (w', Ok body) =>
      let resp : apiAccessKeyUpdateResponse := unmarshal body in
      let errs := ApiAccessUpdateKeyResponse_Errors (APIAccessUpdateKeys resp) in
      if (0 <? len errs)%nat
      then (w', (None, Some (errors_New (formatAPIAccessKeyMutationErrors errs))))
      else (w', (UpdatedKeys (APIAccessUpdateKeys resp), None))
  end.

(** [DeleteAPIAccessKeyMutation] deletes one or more keys. *)
Definition DeleteAPIAccessKeyMutation (keys : ApiAccessDeleteInput) (w : World)
    : returns (slice ApiAccessDeletedKey) :=
  let vars := [("keys", box keys)] in
  match NerdGraphQuery apiAccessKeyDeleteKeys vars w with
  | (w', Err err) => (w', (None, Some err))
  | (w', Ok body) =>
      let resp : apiAccessKeyDeleteResponse := unmarshal body in
      let errs := ApiAccessDeleteKeyResponse_Errors (APIAccessDeleteKeys resp) in
      if (0 <? len errs)%nat
      then (w', (None, Some (errors_New (formatAPIAccessKeyMutationErrors errs))))
      else (w', (DeletedKeys (APIAccessDeleteKeys resp), None))
  end.

End Methods.

End apiaccess.

(* ================================================================== *)
(** * A scripted transport

    The transport the clients are exercised against: it answers the requests
    it receives with the replies of a script, in order, and keeps a log of
    the requests.  With the script used up it reports a transport error.
    The clients cannot look into the world, so what a method does depends on
    the transport only through the replies it gets: a script of arbitrary
    replies stands for an arbitrary transport, and the log shows what the
    method asked of it. *)

Module httptest.

Section Scripted.
Variables B R : Type.

Definition Reply : Type := result (R * B).

Record Server : Type := { script : list Reply; log : list Call }.

Definition EOF : error := TransportError 0 "EOF".

Definition serve (c : Call) (s : Server) : Server * Reply :=
  match script s with
  | [] => ({| script := []; log := log s ++ [c] |}, Err EOF)
  | r :: rest => ({| script := rest; log := log s ++ [c] |}, r)
  end.

(** A GraphQL call hands back the body alone. *)
Definition body_of (sr : Server * Reply) : Server * result B :=
  match sr with
  | (s, Ok (_, b)) => (s, Ok b)
  | (s, Err e) => (s, Err e)
  end.

Definition scripted : Client := {|
  World := Server;
  Body := B;
  Response := R;
  Get url params := serve (REST GET url params None);
  Post url params reqBody := serve (REST POST url params reqBody);
  Put url params reqBody := serve (REST PUT url params reqBody);
  Delete url params := serve (REST DELETE url params None);
  Query q vars s := body_of (serve (GraphQL q vars) s);
  NerdGraphQuery q vars s := body_of (serve (NerdGraph q vars) s)
|}.

(** An [Alerts] client over the scripted transport, for a given pager and
    given decoders. *)
Definition Alerts_scripted (parse : R -> Paging)
    (d_list : B -> alerts.alertPoliciesResponse)
    (d_policy : B -> alerts.alertPolicyResponse)
    (d_search : B -> alerts.alertQueryPolicySearchResponse)
    (d_create : B -> alerts.alertQueryPolicyCreateResponse)
    (d_update : B -> alerts.alertQueryPolicyUpdateResponse)
    (d_query : B -> alerts.alertQueryPolicyResponse)
    (d_delete : B -> alerts.alertQueryPolicyDeleteRespose) : alerts.Alerts :=
  @alerts.Build_Alerts scripted parse d_list d_policy d_search d_create d_update
    d_query d_delete.

(** An [APIAccess] client over the scripted transport. *)
Definition APIAccess_scripted (S : apiaccess.Schema)
    (format : GraphQLErrorResponse apiaccess.GraphQLError -> string)
    (d_create : B -> apiaccess.apiAccessKeyCreateResponse)
    (d_update : B -> apiaccess.apiAccessKeyUpdateResponse)
    (d_get : B -> apiaccess.apiAccessKeyGetResponse)
    (d_search : B -> apiaccess.apiAccessKeySearchResponse)
    (d_delete : B -> apiaccess.apiAccessKeyDeleteResponse) : apiaccess.APIAccess :=
  @apiaccess.Build_APIAccess S scripted format d_create d_update d_get d_search d_delete.

End Scripted.

Arguments script {B R} _.
Arguments log {B R} _.
Arguments Build_Server {B R} _ _.

End httptest.

(* ================================================================== *)
(** * Scripts of pages

    What a script of successful replies amounts to for the two paginated
    methods: the link each page carries, the items it holds, and the requests
    that following the links gives rise to. *)

Module pages.

Section Pages.
Variables B R : Type.

(** A script made of successful replies. *)
Definition served (ps : list (R * B)) : list (httptest.Reply B R) :=
  map (fun p => Ok p) ps.

(** *** REST listing *)

Variable parse : R -> Paging.
Variable d_list : B -> alerts.alertPoliciesResponse.

Definition next_url (p : R * B) : string := Next (parse (fst p)).

Definition policies_of (p : R * B) : list alerts.Policy :=
  elems (alerts.Policies (d_list (snd p))).

(** The request [ListPolicies] makes for a URL. *)
Definition list_request (params : option alerts.ListPoliciesParams) (url : string) : Call :=
  REST GET url (box params) None.

(** *** GraphQL search *)

Variable d_search : B -> alerts.alertQueryPolicySearchResponse.

Definition next_cursor (p : R * B) : option string :=
  alerts.PoliciesSearch_NextCursor (d_search (snd p)).

Definition found_in (p : R * B) : list alerts.QueryPolicy :=
  elems (alerts.PoliciesSearch_Policies (d_search (snd p))).

(** The query [QueryPolicySearch] makes for a cursor. *)
Definition search_request (accountID : Z)
    (params : alerts.AlertsPoliciesSearchCriteriaInput) (cursor : option string) : Call :=
  GraphQL alerts.alertsPolicyQuerySearch
    [("accountID", box accountID); ("cursor", box cursor); ("searchCriteria", box params)].

(** The pointers and cells after one more page of a search. *)
Definition search_page (st : slice alerts.ptr * alerts.heap) (p : R * B)
    : slice alerts.ptr * alerts.heap :=
  alerts.QueryPolicySearch_range (List.length (snd st)) (found_in p) (fst st)
    (snd st ++ [alerts.QueryPolicy_zero]).

End Pages.

Arguments served {B R} _.
Arguments next_url {B R} _ _.
Arguments policies_of {B R} _ _.
Arguments next_cursor {B R} _ _.
Arguments found_in {B R} _ _.
Arguments search_page {B R} _ _ _.

End pages.

(* ================================================================== *)
(** * Test data

    A concrete transport to run the clients on: a response is its [Link] to
    the next page, a body is one of the JSON documents the two APIs answer
    with, and decoding a document into a struct it does not fit leaves the
    struct zero-valued. *)

Module testdata.

Import alerts apiaccess.

Definition R : Type := string.

Definition parse (r : R) : Paging := {| Next := r |}.

#[local] Instance schema : Schema := {|
  ApiAccessCreateInput := string;
  ApiAccessUpdateInput := string;
  ApiAccessDeleteInput := string;
  ApiAccessKeySearchQuery := string;
  ApiAccessKeyType := string;
  GraphQLError := string
|}.

Inductive B : Type :=
| JPolicies (policies : slice Policy)
| JPolicy (policy : Policy)
| JPoliciesSearch (nextCursor : option string) (policies : slice QueryPolicy) (totalCount : Z)
| JQueryPolicy (policy : QueryPolicy)
| JPolicyDelete (id : Z)
| JCreateKeys (createdKeys : slice ApiAccessKey) (errors : slice ApiAccessKeyError)
| JUpdateKeys (updatedKeys : slice ApiAccessKey) (errors : slice ApiAccessKeyError)
| JDeleteKeys (deletedKeys : slice ApiAccessDeletedKey) (errors : slice ApiAccessKeyError)
| JKey (key : ApiAccessKey) (errors : slice string)
| JKeySearch (keys : slice ApiAccessKey) (errors : slice string).

Definition Policy_zero : Policy :=
  {| Policy_ID := 0; Policy_IncidentPreference := ""; Policy_Name := "";
     Policy_CreatedAt := None; Policy_UpdatedAt := None |}.

Definition ApiAccessKey_zero : ApiAccessKey :=
  {| ApiAccessKey_ID := ""; ApiAccessKey_Key := ""; ApiAccessKey_Name := "";
     ApiAccessKey_Notes := ""; ApiAccessKey_Type := ""; ApiAccessKey_AccountID := 0;
     ApiAccessKey_IngestType := ""; ApiAccessKey_UserID := "" |}.

Definition d_list (b : B) : alertPoliciesResponse :=
  match b with
  | JPolicies ps => {| Policies := ps |}
  | _ => {| Policies := None |}
  end.

Definition d_policy (b : B) : alertPolicyResponse :=
  match b with
  | JPolicy p => {| alertPolicyResponse_Policy := p |}
  | _ => {| alertPolicyResponse_Policy := Policy_zero |}
  end.

Definition d_search (b : B) : alertQueryPolicySearchResponse :=
  match b with
  | JPoliciesSearch c ps n =>
      {| PoliciesSearch_NextCursor := c; PoliciesSearch_Policies := ps;
         PoliciesSearch_TotalCount := n |}
  | _ =>
      {| PoliciesSearch_NextCursor := None; PoliciesSearch_Policies := None;
         PoliciesSearch_TotalCount := 0 |}
  end.

Definition d_create (b : B) : alertQueryPolicyCreateResponse :=
  match b with
  | JQueryPolicy p => {| alertQueryPolicyCreateResponse_QueryPolicy := p |}
  | _ => {| alertQueryPolicyCreateResponse_QueryPolicy := QueryPolicy_zero |}
  end.

Definition d_update (b : B) : alertQueryPolicyUpdateResponse :=
  match b with
  | JQueryPolicy p => {| alertQueryPolicyUpdateResponse_QueryPolicy := p |}
  | _ => {| alertQueryPolicyUpdateResponse_QueryPolicy := QueryPolicy_zero |}
  end.

Definition d_query (b : B) : alertQueryPolicyResponse :=
  match b with
  | JQueryPolicy p => {| Actor_Account_Alerts_Policy := p |}
  | _ => {| Actor_Account_Alerts_Policy := QueryPolicy_zero |}
  end.

Definition d_delete (b : B) : alertQueryPolicyDeleteRespose :=
  match b with
  | JPolicyDelete id => {| AlertsPolicyDelete_ID := id |}
  | _ => {| AlertsPolicyDelete_ID := 0 |}
  end.

Definition k_create (b : B) : apiAccessKeyCreateResponse :=
  match b with
  | JCreateKeys ks es =>
      {| APIAccessCreateKeys :=
           {| CreatedKeys := ks; ApiAccessCreateKeyResponse_Errors := es |} |}
  | _ =>
      {| APIAccessCreateKeys :=
           {| CreatedKeys := None; ApiAccessCreateKeyResponse_Errors := None |} |}
  end.

Definition k_update (b : B) : apiAccessKeyUpdateResponse :=
  match b with
  | JUpdateKeys ks es =>
      {| APIAccessUpdateKeys :=
           {| UpdatedKeys := ks; ApiAccessUpdateKeyResponse_Errors := es |} |}
  | _ =>
      {| APIAccessUpdateKeys :=
           {| UpdatedKeys := None; ApiAccessUpdateKeyResponse_Errors := None |} |}
  end.

Definition k_delete (b : B) : apiAccessKeyDeleteResponse :=
  match b with
  | JDeleteKeys ks es =>
      {| APIAccessDeleteKeys :=
           {| DeletedKeys := ks; ApiAccessDeleteKeyResponse_Errors := es |} |}
  | _ =>
      {| APIAccessDeleteKeys :=
           {| DeletedKeys := None; ApiAccessDeleteKeyResponse_Errors := None |} |}
  end.

Definition k_get (b : B) : apiAccessKeyGetResponse :=
  match b with
  | JKey k es =>
      {| Actor_APIAccess_Key := k;
         apiAccessKeyGetResponse_GraphQLErrorResponse := {| Errors := es |} |}
  | _ =>
      {| Actor_APIAccess_Key := ApiAccessKey_zero;
         apiAccessKeyGetResponse_GraphQLErrorResponse := {| Errors := None |} |}
  end.

Definition k_search (b : B) : apiAccessKeySearchResponse :=
  match b with
  | JKeySearch ks es =>
      {| Actor_APIAccess_KeySearch := {| Keys := ks |};
         apiAccessKeySearchResponse_GraphQLErrorResponse := {| Errors := es |} |}
  | _ =>
      {| Actor_APIAccess_KeySearch := {| Keys := None |};
         apiAccessKeySearchResponse_GraphQLErrorResponse := {| Errors := None |} |}
  end.

(** The messages of the entries, joined. *)
Definition format (r : GraphQLErrorResponse string) : string :=
  String.concat ", " (elems (Errors r)).

Definition alerts_client : Alerts :=
  httptest.Alerts_scripted B R parse d_list d_policy d_search d_create d_update
    d_query d_delete.

Definition keys_client : APIAccess :=
  httptest.APIAccess_scripted B R schema format k_create k_update k_get k_search k_delete.

Definition policy (id : Z) (name : string) : Policy :=
  {| Policy_ID := id; Policy_IncidentPreference := IncidentPreferenceTypes_PerPolicy;
     Policy_Name := name; Policy_CreatedAt := None; Policy_UpdatedAt := None |}.

Definition query_policy (id : Z) (name : string) : QueryPolicy :=
  {| QueryPolicy_ID := id; QueryPolicy_IncidentPreference := IncidentPreferenceTypes_PerPolicy;
     QueryPolicy_Name := name; QueryPolicy_AccountID := 7 |}.

Definition key_error (type message : string) : ApiAccessKeyError :=
  {| ApiAccessKeyError_Message := message; ApiAccessKeyError_Type := type |}.

Definition key (id : string) : ApiAccessKey :=
  {| ApiAccessKey_ID := id; ApiAccessKey_Key := "NRAK-1"; ApiAccessKey_Name := "k";
     ApiAccessKey_Notes := ""; ApiAccessKey_Type := "USER"; ApiAccessKey_AccountID := 7;
     ApiAccessKey_IngestType := ""; ApiAccessKey_UserID := "42" |}.

(** A server with a script and an empty log. *)
Definition server (script : list (httptest.Reply B R)) : httptest.Server B R :=
  httptest.Build_Server script [].

(** Two pages of policies; ID 2 occurs on both. *)
Definition page1 : R * B :=
  ("/alerts_policies.json?page=2", JPolicies (Some [policy 1 "a"; policy 2 "b"])).

Definition page2 : R * B :=
  ("", JPolicies (Some [policy 2 "again"; policy 3 "c"])).

(** Two pages of a search, a first page whose cursor is the empty string,
    and the criteria of the search. *)
Definition found1 : R * B :=
  ("", JPoliciesSearch (Some "abc") (Some [query_policy 1 "a"; query_policy 2 "b"]) 3).

Definition found2 : R * B :=
  ("", JPoliciesSearch None (Some [query_policy 3 "c"]) 3).

Definition found_empty_cursor : R * B :=
  ("", JPoliciesSearch (Some "") (Some [query_policy 1 "a"]) 2).

Definition criteria : AlertsPoliciesSearchCriteriaInput :=
  {| AlertsPoliciesSearchCriteriaInput_IDs := None |}.

(** Replies of the policy and key APIs. *)
Definition echo : R * B := ("", JPolicy (policy 42 "renamed")).

Definition deleted99 : R * B := ("", JPolicyDelete 99).

Definition two_errors : list ApiAccessKeyError :=
  [key_error "FORBIDDEN" "no access"; key_error "INVALID" "bad name"].

Definition create_failed : R * B := ("", JCreateKeys (Some [key "1"]) (Some two_errors)).

Definition key_without_errors : R * B := ("", JKey (key "1") None).

Definition key_with_empty_errors : R * B := ("", JKey (key "1") (Some [])).

Definition created_with_empty_errors : R * B :=
  ("", JCreateKeys (Some [key "1"]) (Some [])).

Definition timeout : error := TransportError 504 "gateway timeout".

(** A create response without keys and without errors, and two pages
    without policies: one without the [policies] key, one with an empty
    array. *)
Definition no_keys_no_errors : R * B := ("", JCreateKeys None None).

Definition page_without_policies : R * B :=
  ("/alerts_policies.json?page=2", JPolicies None).

Definition page_with_no_policies : R * B := ("", JPolicies (Some [])).

End testdata.

(* ================================================================== *)
(** * Observations

    What is read off a logged request or a returned value when stating what
    the clients do: the URL and the variable names of a request, the variable
    names a GraphQL text declares, the number a decimal text stands for, and
    the policy a returned pointer points to. *)

Module observe.

Definition call_url (c : Call) : option string :=
  match c with
  | REST _ url _ _ => Some url
  | _ => None
  end.

Definition call_method (c : Call) : option Method :=
  match c with
  | REST m _ _ _ => Some m
  | _ => None
  end.

(** The text of a GraphQL request. *)
Definition call_query (c : Call) : string :=
  match c with
  | REST _ _ _ _ => EmptyString
  | GraphQL query _ => query
  | NerdGraph query _ => query
  end.

(** The keys of the variable map of a GraphQL request. *)
Definition call_variables (c : Call) : list string :=
  match c with
  | REST _ _ _ _ => []
  | GraphQL _ vars => map fst vars
  | NerdGraph _ vars => map fst vars
  end.

(** The text after the first occurrence of a character (empty without one)
    and the text before it (everything without one). *)
Fixpoint after_char (c : ascii) (s : string) : string :=
  match s with
  | EmptyString => EmptyString
  | String x rest => if Ascii.eqb x c then rest else after_char c rest
  end.

Fixpoint before_char (c : ascii) (s : string) : string :=
  match s with
  | EmptyString => EmptyString
  | String x rest => if Ascii.eqb x c then EmptyString else String x (before_char c rest)
  end.

(** The names between a [$] and the next [:]. *)
Fixpoint dollar_names (s : string) (current : option string) (found : list string)
    : list string :=
  match s with
  | EmptyString => found
  | String x rest =>
      match current with
      | None =>
          if Ascii.eqb x "$" then dollar_names rest (Some EmptyString) found
          else dollar_names rest None found
      | Some name =>
          if Ascii.eqb x ":" then dollar_names rest None (found ++ [name])
          else dollar_names rest (Some (name ++ String x EmptyString)%string) found
      end
  end.

(** The variables a GraphQL operation declares: the [$name: Type] entries of
    the parenthesis that follows the operation keyword. *)
Definition declared_variables (query : string) : list string :=
  dollar_names (before_char ")" (after_char "(" query)) None [].

(** The number a decimal text stands for. *)
Definition atoi (s : string) : option Z :=
  option_map Z.of_int (NilZero.int_of_string s).

(** The policy a pointer returned by [QueryPolicySearch] points to. *)
Definition deref (cells : alerts.heap) (p : alerts.ptr) : alerts.QueryPolicy :=
  nth p cells alerts.QueryPolicy_zero.

(** The last policy of a page of a search (the zero value for an empty page). *)
Definition last_found {B R : Type} (d_search : B -> alerts.alertQueryPolicySearchResponse)
    (p : R * B) : alerts.QueryPolicy :=
  List.last (pages.found_in d_search p) alerts.QueryPolicy_zero.

(** The addresses [QueryPolicySearch] appends for a run of pages, the first
    page's variable being the cell [base]. *)
Fixpoint pointers_from {B R : Type} (d_search : B -> alerts.alertQueryPolicySearchResponse)
    (base : nat) (ps : list (R * B)) : list alerts.ptr :=
  match ps with
  | [] => []
  | p :: rest =>
      repeat base (List.length (pages.found_in d_search p))
        ++ pointers_from d_search (S base) rest
  end.

End observe.

(* ================================================================== *)
(** * Properties of the two clients *)

Import alerts apiaccess.

(** ** General facts *)

Lemma append_Some {T} (l : list T) (t : slice T) :
  append (Some l) t = Some (l ++ elems t).
Proof. unfold append. destruct (elems t); reflexivity. Qed.

Lemma eqb_empty_false (s : string) : s <> "" -> (s =? "")%string = false.
Proof. intro H. apply String.eqb_neq. exact H. Qed.

Lemma string_app_assoc (s t u : string) : ((s ++ t) ++ u = s ++ (t ++ u))%string.
Proof. induction s as [| c s IH]; simpl; [reflexivity | rewrite IH; reflexivity]. Qed.

Lemma string_app_nil_r (s : string) : (s ++ "" = s)%string.
Proof. induction s as [| c s IH]; simpl; [reflexivity | rewrite IH; reflexivity]. Qed.

(** The aggregated message is the lines of the entries one after the other. *)
Lemma formatAPIAccessKeyMutationErrors_range_lines (errs : list ApiAccessKeyError) :
  forall acc : string,
    formatAPIAccessKeyMutationErrors_range acc errs
    = (acc ++ fold_right String.append "" (map Sprintf_line errs))%string.
Proof.
  induction errs as [| e errs IH]; intro acc; simpl.
  - rewrite string_app_nil_r. reflexivity.
  - rewrite IH, string_app_assoc. reflexivity.
Qed.

Lemma formatAPIAccessKeyMutationErrors_lines (errors : slice ApiAccessKeyError) :
  formatAPIAccessKeyMutationErrors errors
  = fold_right String.append "" (map Sprintf_line (elems errors)).
Proof.
  unfold formatAPIAccessKeyMutationErrors.
  rewrite formatAPIAccessKeyMutationErrors_range_lines. reflexivity.
Qed.

Lemma lines_app (l1 l2 : list string) :
  fold_right String.append "" (l1 ++ l2)
  = (fold_right String.append "" l1 ++ fold_right String.append "" l2)%string.
Proof.
  induction l1 as [| x l1 IH]; simpl; [reflexivity |].
  rewrite IH, string_app_assoc. reflexivity.
Qed.

Lemma lines_contain (errs : list ApiAccessKeyError) (e : ApiAccessKeyError) :
  In e errs ->
  exists before after : string,
    fold_right String.append "" (map Sprintf_line errs)
    = (before ++ Sprintf_line e ++ after)%string.
Proof.
  intro Hin. destruct (in_split _ _ Hin) as [l1 [l2 ->]].
  rewrite map_app, lines_app. simpl. eauto.
Qed.

Lemma len_pos {T} (s : slice T) : (0 <? len s)%nat = true <-> elems s <> [].
Proof.
  unfold len. destruct (elems s); simpl; split; intro H;
    try reflexivity; try discriminate; try congruence.
Qed.

Lemma len_zero {T} (s : slice T) : (0 <? len s)%nat = false <-> elems s = [].
Proof.
  unfold len. destruct (elems s); simpl; split; intro H;
    try reflexivity; try discriminate.
Qed.

(** [GetPolicy] in terms of what [ListPolicies] returns, for any client. *)
Lemma GetPolicy_range_none (id : Z) (l : list Policy) :
  GetPolicy_range id l = None <-> (forall p, In p l -> Policy_ID p <> id).
Proof.
  induction l as [| q l IH]; simpl.
  - split; [intros _ p [] | reflexivity].
  - destruct (Z.eqb_spec (Policy_ID q) id) as [E | E].
    + split; [discriminate |]. intro H. exfalso. apply (H q); auto.
    + rewrite IH. split.
      * intros H p [<- | Hp]; auto.
      * intros H p Hp. apply H. auto.
Qed.

Lemma GetPolicy_range_first (id : Z) (l : list Policy) (p : Policy) :
  GetPolicy_range id l = Some p ->
  Policy_ID p = id /\
  exists before after,
    l = before ++ p :: after /\ (forall q, In q before -> Policy_ID q <> id).
Proof.
  induction l as [| q l IH]; simpl; [discriminate |].
  destruct (Z.eqb_spec (Policy_ID q) id) as [E | E].
  - intro H. injection H as <-. split; [exact E |].
    exists [], l. split; [reflexivity | intros ? []].
  - intro H. destruct (IH H) as [Hid [before [after [Hl Hb]]]].
    split; [exact Hid |].
    exists (q :: before), after. split; [rewrite Hl; reflexivity |].
    intros q' [<- | Hq]; auto.
Qed.

Lemma GetPolicy_range_some (id : Z) (l : list Policy) :
  (exists p, In p l /\ Policy_ID p = id) -> exists p, GetPolicy_range id l = Some p.
Proof.
  intros [p [Hin Hid]].
  destruct (GetPolicy_range id l) as [q |] eqn:E; [exists q; reflexivity |].
  exfalso. apply (proj1 (GetPolicy_range_none id l) E p Hin Hid).
Qed.

Lemma GetPolicy_of_ListPolicies {c : Alerts} (fuel : nat) (id : Z) (w w' : World)
    (policies : slice Policy) :
  ListPolicies fuel None w = Some (w', (policies, None)) ->
  GetPolicy fuel id w
  = Some (w', match GetPolicy_range id (elems policies) with
              | Some policy => (Some policy, None)
              | None => (None, Some (NewNotFoundf_d "no alert policy found for id " id))
              end).
Proof.
  intro H. unfold GetPolicy. rewrite H.
  destruct (GetPolicy_range id (elems policies)); reflexivity.
Qed.

Lemma GetPolicy_of_ListPolicies_error {c : Alerts} (fuel : nat) (id : Z) (w w' : World)
    (policies : slice Policy) (err : error) :
  ListPolicies fuel None w = Some (w', (policies, Some err)) ->
  GetPolicy fuel id w = Some (w', (None, Some err)).
Proof. intro H. unfold GetPolicy. rewrite H. reflexivity. Qed.


(** ** The clients against a scripted transport

    Bodies, responses, the pager, the decoders and the abstract types of the
    key API are arbitrary throughout. *)

Section Scripted.
Variables B R : Type.
Variable parse : R -> Paging.
Variable d_list : B -> alertPoliciesResponse.
Variable d_policy : B -> alertPolicyResponse.
Variable d_search : B -> alertQueryPolicySearchResponse.
Variable d_create : B -> alertQueryPolicyCreateResponse.
Variable d_update : B -> alertQueryPolicyUpdateResponse.
Variable d_query : B -> alertQueryPolicyResponse.
Variable d_delete : B -> alertQueryPolicyDeleteRespose.

Variable schema : Schema.
Variable format : GraphQLErrorResponse GraphQLError -> string.
Variable k_create : B -> apiAccessKeyCreateResponse.
Variable k_update : B -> apiAccessKeyUpdateResponse.
Variable k_get : B -> apiAccessKeyGetResponse.
Variable k_search : B -> apiAccessKeySearchResponse.
Variable k_delete : B -> apiAccessKeyDeleteResponse.

Let a : Alerts :=
  httptest.Alerts_scripted B R parse d_list d_policy d_search d_create d_update
    d_query d_delete.
#[local] Existing Instance a.

Let k : APIAccess :=
  httptest.APIAccess_scripted B R schema format k_create k_update k_get k_search k_delete.
#[local] Existing Instance k.

Let Server : Type := httptest.Server B R.
Let Reply : Type := httptest.Reply B R.

(** One turn of the loop of [ListPolicies] against the script. *)
Lemma ListPolicies_for_stop (params : option ListPoliciesParams) (fuel : nat)
    (acc : slice Policy) (w : Server) :
  ListPolicies_for fuel params "" acc w = Some (w, (acc, None)).
Proof. destruct fuel; reflexivity. Qed.

Lemma ListPolicies_for_page (params : option ListPoliciesParams) (fuel : nat)
    (url : string) (acc : slice Policy) (p : R * B) (rest : list Reply)
    (log0 : list Call) :
  url <> "" ->
  ListPolicies_for (S fuel) params url acc (httptest.Build_Server (Ok p :: rest) log0)
  = ListPolicies_for fuel params (pages.next_url parse p)
      (append acc (Policies (d_list (snd p))))
      (httptest.Build_Server rest (log0 ++ [pages.list_request params url])).
Proof.
  intro Hurl. destruct p as [r b].
  cbn [ListPolicies_for]. rewrite (eqb_empty_false _ Hurl). reflexivity.
Qed.

Lemma ListPolicies_for_error (params : option ListPoliciesParams) (fuel : nat)
    (url : string) (acc : slice Policy) (e : error) (rest : list Reply)
    (log0 : list Call) :
  url <> "" ->
  ListPolicies_for (S fuel) params url acc (httptest.Build_Server (Err e :: rest) log0)
  = Some (httptest.Build_Server rest (log0 ++ [pages.list_request params url]),
          (None, Some e)).
Proof.
  intro Hurl. cbn [ListPolicies_for]. rewrite (eqb_empty_false _ Hurl). reflexivity.
Qed.

(** The loop over a script of pages whose links all continue but the last. *)
Lemma ListPolicies_for_pages (params : option ListPoliciesParams) :
  forall (ps : list (R * B)) (last : R * B) (rest : list Reply)
         (log0 : list Call) (url : string) (acc : list Policy) (fuel : nat),
    url <> "" ->
    Forall (fun p => pages.next_url parse p <> "") ps ->
    pages.next_url parse last = "" ->
    List.length ps < fuel ->
    ListPolicies_for fuel params url (Some acc)
      (httptest.Build_Server (pages.served (ps ++ [last]) ++ rest) log0)
    = Some (httptest.Build_Server rest
              (log0 ++ map (pages.list_request params)
                         (url :: map (pages.next_url parse) ps)),
            (Some (acc ++ List.concat (map (pages.policies_of d_list) (ps ++ [last]))),
             None)).
Proof.
  induction ps as [| p ps IH]; intros last rest log0 url acc fuel Hurl Hall Hlast Hfuel;
    (destruct fuel as [| fuel]; [inversion Hfuel |]).
  - cbn [app pages.served map]. rewrite ListPolicies_for_page by exact Hurl.
    rewrite Hlast, ListPolicies_for_stop, append_Some.
    cbn [List.concat map]. rewrite app_nil_r. reflexivity.
  - inversion Hall as [| ? ? Hp Hrest]; subst.
    cbn [app pages.served map]. rewrite ListPolicies_for_page by exact Hurl.
    rewrite append_Some.
    change (map (fun p0 : R * B => Ok p0) (ps ++ [last]))
      with (pages.served (ps ++ [last])).
    rewrite (IH last rest _ (pages.next_url parse p) _ fuel); auto.
    + cbn [List.concat map]. unfold pages.policies_of at 2.
      rewrite <- !app_assoc. reflexivity.
    + simpl in Hfuel. lia.
Qed.

(** The loop over a script whose pages all continue and that then fails. *)
Lemma ListPolicies_for_failing (params : option ListPoliciesParams) :
  forall (ps : list (R * B)) (e : error) (rest : list Reply)
         (log0 : list Call) (url : string) (acc : slice Policy) (fuel : nat),
    url <> "" ->
    Forall (fun p => pages.next_url parse p <> "") ps ->
    List.length ps < fuel ->
    ListPolicies_for fuel params url acc
      (httptest.Build_Server (pages.served ps ++ Err e :: rest) log0)
    = Some (httptest.Build_Server rest
              (log0 ++ map (pages.list_request params)
                         (url :: map (pages.next_url parse) ps)),
            (None, Some e)).
Proof.
  induction ps as [| p ps IH]; intros e rest log0 url acc fuel Hurl Hall Hfuel;
    (destruct fuel as [| fuel]; [inversion Hfuel |]).
  - cbn [app pages.served map]. apply ListPolicies_for_error. exact Hurl.
  - inversion Hall as [| ? ? Hp Hrest]; subst.
    cbn [app pages.served map]. rewrite ListPolicies_for_page by exact Hurl.
    change (map (fun p0 : R * B => Ok p0) ps) with (pages.served ps).
    rewrite (IH e rest _ (pages.next_url parse p) _ fuel); auto.
    + cbn [map]. rewrite <- !app_assoc. reflexivity.
    + simpl in Hfuel. lia.
Qed.

(** One turn of the loop of [QueryPolicySearch] against the script. *)
Lemma QueryPolicySearch_for_page (fuel : nat) (accountID : Z)
    (params : AlertsPoliciesSearchCriteriaInput) (cursor : option string)
    (policies : slice ptr) (h : heap) (p : R * B) (rest : list Reply)
    (log0 : list Call) :
  QueryPolicySearch_for (S fuel) accountID params cursor policies h
    (httptest.Build_Server (Ok p :: rest) log0)
  = let st := pages.search_page d_search (policies, h) p in
    let w' := httptest.Build_Server rest
                (log0 ++ [pages.search_request accountID params cursor]) in
    match pages.next_cursor d_search p with
    | None => Some (w', (st, None))
    | Some c =>
        QueryPolicySearch_for fuel accountID params (Some c) (fst st) (snd st) w'
    end.
Proof.
  destruct p as [r b]. cbn [QueryPolicySearch_for].
  unfold pages.search_page, pages.next_cursor, pages.found_in; cbn [fst snd].
  cbn -[QueryPolicySearch_range QueryPolicySearch_for alertsPolicyQuerySearch List.length app].
  destruct (QueryPolicySearch_range _ _ _ _) as [policies' h'].
  cbn [fst snd].
  destruct (PoliciesSearch_NextCursor (d_search b)); reflexivity.
Qed.

Lemma QueryPolicySearch_for_error (fuel : nat) (accountID : Z)
    (params : AlertsPoliciesSearchCriteriaInput) (cursor : option string)
    (policies : slice ptr) (h : heap) (e : error) (rest : list Reply)
    (log0 : list Call) :
  QueryPolicySearch_for (S fuel) accountID params cursor policies h
    (httptest.Build_Server (Err e :: rest) log0)
  = Some (httptest.Build_Server rest
            (log0 ++ [pages.search_request accountID params cursor]),
          ((None, h), Some e)).
Proof. reflexivity. Qed.

(** The loop over a script of pages whose cursors are all non-nil but the
    last, which is nil. *)
Lemma QueryPolicySearch_for_pages (accountID : Z)
    (params : AlertsPoliciesSearchCriteriaInput) :
  forall (ps : list (R * B)) (last : R * B) (rest : list Reply)
         (log0 : list Call) (cursor : option string)
         (st : slice ptr * heap) (fuel : nat),
    Forall (fun p => pages.next_cursor d_search p <> None) ps ->
    pages.next_cursor d_search last = None ->
    List.length ps < fuel ->
    QueryPolicySearch_for fuel accountID params cursor (fst st) (snd st)
      (httptest.Build_Server (pages.served (ps ++ [last]) ++ rest) log0)
    = Some (httptest.Build_Server rest
              (log0 ++ map (pages.search_request accountID params)
                         (cursor :: map (pages.next_cursor d_search) ps)),
            (fold_left (pages.search_page d_search) (ps ++ [last]) st, None)).
Proof.
  induction ps as [| p ps IH]; intros last rest log0 cursor st fuel Hall Hlast Hfuel;
    (destruct fuel as [| fuel]; [inversion Hfuel |]).
  - cbn [app pages.served map]. rewrite QueryPolicySearch_for_page.
    cbv zeta. rewrite Hlast. destruct st; reflexivity.
  - inversion Hall as [| ? ? Hp Hrest]; subst.
    cbn [app pages.served map]. rewrite QueryPolicySearch_for_page.
    cbv zeta. destruct (pages.next_cursor d_search p) as [c |] eqn:Hc; [| congruence].
    change (map (fun p0 : R * B => Ok p0) (ps ++ [last]))
      with (pages.served (ps ++ [last])).
    rewrite (IH last rest _ (Some c) _ fuel); auto.
    + cbn [map fold_left]. rewrite <- !app_assoc. destruct st; reflexivity.
    + simpl in Hfuel. lia.
Qed.

Lemma QueryPolicySearch_for_failing (accountID : Z)
    (params : AlertsPoliciesSearchCriteriaInput) :
  forall (ps : list (R * B)) (e : error) (rest : list Reply)
         (log0 : list Call) (cursor : option string)
         (st : slice ptr * heap) (fuel : nat),
    Forall (fun p => pages.next_cursor d_search p <> None) ps ->
    List.length ps < fuel ->
    QueryPolicySearch_for fuel accountID params cursor (fst st) (snd st)
      (httptest.Build_Server (pages.served ps ++ Err e :: rest) log0)
    = Some (httptest.Build_Server rest
              (log0 ++ map (pages.search_request accountID params)
                         (cursor :: map (pages.next_cursor d_search) ps)),
            ((None, snd (fold_left (pages.search_page d_search) ps st)), Some e)).
Proof.
  induction ps as [| p ps IH]; intros e rest log0 cursor st fuel Hall Hfuel;
    (destruct fuel as [| fuel]; [inversion Hfuel |]).
  - cbn [app pages.served map]. rewrite QueryPolicySearch_for_error. reflexivity.
  - inversion Hall as [| ? ? Hp Hrest]; subst.
    cbn [app pages.served map]. rewrite QueryPolicySearch_for_page.
    cbv zeta. destruct (pages.next_cursor d_search p) as [c |] eqn:Hc; [| congruence].
    change (map (fun p0 : R * B => Ok p0) ps) with (pages.served ps).
    rewrite (IH e rest _ (Some c) _ fuel); auto.
    + cbn [map fold_left]. rewrite <- !app_assoc. destruct st; reflexivity.
    + simpl in Hfuel. lia.
Qed.


(** The whole of [ListPolicies] and [GetPolicy] over a script of pages. *)
Lemma ListPolicies_pages (params : option ListPoliciesParams)
    (ps : list (R * B)) (last : R * B) (rest : list Reply) (log0 : list Call)
    (fuel : nat) :
  Forall (fun p => pages.next_url parse p <> "") ps ->
  pages.next_url parse last = "" ->
  List.length ps < fuel ->
  ListPolicies fuel params
    (httptest.Build_Server (pages.served (ps ++ [last]) ++ rest) log0)
  = Some (httptest.Build_Server rest
            (log0 ++ map (pages.list_request params)
                       ("/alerts_policies.json" :: map (pages.next_url parse) ps)),
          (Some (List.concat (map (pages.policies_of d_list) (ps ++ [last]))), None)).
Proof.
  intros Hall Hlast Hfuel. unfold ListPolicies.
  rewrite (ListPolicies_for_pages params ps last rest log0 _ [] fuel);
    auto; discriminate.
Qed.

Lemma GetPolicy_pages (id : Z)
    (ps : list (R * B)) (last : R * B) (rest : list Reply) (log0 : list Call)
    (fuel : nat) :
  Forall (fun p => pages.next_url parse p <> "") ps ->
  pages.next_url parse last = "" ->
  List.length ps < fuel ->
  GetPolicy fuel id
    (httptest.Build_Server (pages.served (ps ++ [last]) ++ rest) log0)
  = Some (httptest.Build_Server rest
            (log0 ++ map (pages.list_request None)
                       ("/alerts_policies.json" :: map (pages.next_url parse) ps)),
          match GetPolicy_range id
                  (List.concat (map (pages.policies_of d_list) (ps ++ [last]))) with
          | Some policy => (Some policy, None)
          | None => (None, Some (NewNotFoundf_d "no alert policy found for id " id))
          end).
Proof.
  intros Hall Hlast Hfuel.
  rewrite (GetPolicy_of_ListPolicies (c := a) fuel id _ _ _
             (ListPolicies_pages None ps last rest log0 fuel Hall Hlast Hfuel)).
  reflexivity.
Qed.

(** The slice of pointers of a search is never [nil]. *)
Lemma QueryPolicySearch_range_Some (p : ptr) (page : list QueryPolicy) :
  forall (l : list ptr) (h : heap),
    exists l' h', QueryPolicySearch_range p page (Some l) h = (Some l', h').
Proof.
  induction page as [| x page IH]; intros l h; simpl.
  - eauto.
  - apply IH.
Qed.

Lemma search_pages_Some (ps : list (R * B)) :
  forall (l : list ptr) (h : heap),
    exists l' h', fold_left (pages.search_page d_search) ps (Some l, h) = (Some l', h').
Proof.
  induction ps as [| p ps IH]; intros l h; simpl.
  - eauto.
  - unfold pages.search_page at 2; simpl.
    destruct (QueryPolicySearch_range_Some (List.length h) (pages.found_in d_search p)
                l (h ++ [QueryPolicy_zero])) as [l' [h' E]].
    rewrite E. apply IH.
Qed.

(** The whole of [QueryPolicySearch] over a script of pages. *)
Lemma QueryPolicySearch_pages (accountID : Z)
    (params : AlertsPoliciesSearchCriteriaInput)
    (ps : list (R * B)) (last : R * B) (rest : list Reply) (log0 : list Call)
    (fuel : nat) :
  Forall (fun p => pages.next_cursor d_search p <> None) ps ->
  pages.next_cursor d_search last = None ->
  List.length ps < fuel ->
  QueryPolicySearch fuel accountID params
    (httptest.Build_Server (pages.served (ps ++ [last]) ++ rest) log0)
  = Some (httptest.Build_Server rest
            (log0 ++ map (pages.search_request accountID params)
                       (None :: map (pages.next_cursor d_search) ps)),
          (fold_left (pages.search_page d_search) (ps ++ [last]) (Some [], []), None)).
Proof.
  intros Hall Hlast Hfuel. unfold QueryPolicySearch.
  apply (QueryPolicySearch_for_pages accountID params ps last rest log0 None
           (Some [], []) fuel Hall Hlast Hfuel).
Qed.

Lemma QueryPolicySearch_failing (accountID : Z)
    (params : AlertsPoliciesSearchCriteriaInput)
    (ps : list (R * B)) (e : error) (rest : list Reply) (log0 : list Call)
    (fuel : nat) :
  Forall (fun p => pages.next_cursor d_search p <> None) ps ->
  List.length ps < fuel ->
  QueryPolicySearch fuel accountID params
    (httptest.Build_Server (pages.served ps ++ Err e :: rest) log0)
  = Some (httptest.Build_Server rest
            (log0 ++ map (pages.search_request accountID params)
                       (None :: map (pages.next_cursor d_search) ps)),
          ((None, snd (fold_left (pages.search_page d_search) ps (Some [], []))),
           Some e)).
Proof.
  intros Hall Hfuel. unfold QueryPolicySearch.
  apply (QueryPolicySearch_for_failing accountID params ps e rest log0 None
           (Some [], []) fuel Hall Hfuel).
Qed.

(** ** Alert policies *)

(** C1.  Whatever pages the transport returns, as long as every page but the
    last carries a non-empty [Next] link and the last carries the empty one,
    [ListPolicies] returns (given fuel for one request per page) the policies
    of the pages concatenated in the order served, with a nil error.  Its
    first request goes to [/alerts_policies.json], each further one to the
    [Next] link parsed from the page before, and it stops at the page with
    the empty link: the replies after that page are left unconsumed. *)
Theorem ListPolicies_concatenates_pages (params : option ListPoliciesParams)
    (ps : list (R * B)) (last : R * B) (rest : list Reply) (log0 : list Call)
    (fuel : nat) :
  Forall (fun p => pages.next_url parse p <> "") ps ->
  pages.next_url parse last = "" ->
  List.length ps < fuel ->
  ListPolicies fuel params
    (httptest.Build_Server (pages.served (ps ++ [last]) ++ rest) log0)
  = Some (httptest.Build_Server rest
            (log0 ++ map (pages.list_request params)
                       ("/alerts_policies.json" :: map (pages.next_url parse) ps)),
          (Some (List.concat (map (pages.policies_of d_list) (ps ++ [last]))), None)).
Proof. apply ListPolicies_pages. Qed.

(** C2, as amended.  Whatever pages the transport returns, as long as every
    page but the last carries a non-nil cursor (an empty string included) and
    the last carries the nil cursor, [QueryPolicySearch] returns (given fuel
    for one query per page) with a nil error after exactly one query per
    page: the first query carries the nil cursor, each further one the cursor
    of the page before, and the replies after the page with the nil cursor
    are left unconsumed. *)
Theorem QueryPolicySearch_consumes_cursors (accountID : Z)
    (params : AlertsPoliciesSearchCriteriaInput)
    (ps : list (R * B)) (last : R * B) (rest : list Reply) (log0 : list Call)
    (fuel : nat) :
  Forall (fun p => pages.next_cursor d_search p <> None) ps ->
  pages.next_cursor d_search last = None ->
  List.length ps < fuel ->
  QueryPolicySearch fuel accountID params
    (httptest.Build_Server (pages.served (ps ++ [last]) ++ rest) log0)
  = Some (httptest.Build_Server rest
            (log0 ++ map (pages.search_request accountID params)
                       (None :: map (pages.next_cursor d_search) ps)),
          (fold_left (pages.search_page d_search) (ps ++ [last]) (Some [], []), None)).
Proof. apply QueryPolicySearch_pages. Qed.

(** C3.  For every id and every listing the transport serves (pages as in
    C1), [GetPolicy] returns, and the error it returns is a not-found error
    exactly when no policy of any page has the given ID; in that case the
    result is nil and the error is the one made by [NewNotFoundf]; when some
    policy has the ID, a policy is returned with a nil error. *)
Theorem GetPolicy_not_found_iff_no_match (id : Z)
    (ps : list (R * B)) (last : R * B) (rest : list Reply) (log0 : list Call)
    (fuel : nat) :
  Forall (fun p => pages.next_url parse p <> "") ps ->
  pages.next_url parse last = "" ->
  List.length ps < fuel ->
  let listing := List.concat (map (pages.policies_of d_list) (ps ++ [last])) in
  exists (w' : Server) (r : option Policy * option error),
    GetPolicy fuel id
      (httptest.Build_Server (pages.served (ps ++ [last]) ++ rest) log0)
    = Some (w', r) /\
    (IsNotFound (snd r) = true <->
     (forall p, In p listing -> Policy_ID p <> id)) /\
    ((forall p, In p listing -> Policy_ID p <> id) ->
     r = (None, Some (NotFound ("no alert policy found for id " ++ itoa id)%string))) /\
    ((exists p, In p listing /\ Policy_ID p = id) ->
     exists policy, r = (Some policy, None)).
Proof.
  intros Hall Hlast Hfuel listing.
  eexists. eexists. split.
  - apply GetPolicy_pages; assumption.
  - fold listing.
    destruct (GetPolicy_range id listing) as [q |] eqn:E.
    + destruct (GetPolicy_range_first id listing q E)
        as [Hid [before [after [Hl _]]]].
      assert (Hin : In q listing) by (rewrite Hl; apply in_elt).
      repeat split.
      * discriminate.
      * intro H. exfalso. apply (H q Hin Hid).
      * intro H. exfalso. apply (H q Hin Hid).
      * intros _. exists q. reflexivity.
    + pose proof (proj1 (GetPolicy_range_none id listing) E) as Hnone.
      repeat split.
      * intros _. exact Hnone.
      * intros [p [Hin Hid]]. exfalso. apply (Hnone p Hin Hid).
Qed.

(** C9.  Whenever [GetPolicy] returns a policy without error (pages as in
    C1), that policy has the requested ID and is the first one with that ID
    in the listing, the pages' policies in the order served: everything
    before it, on the same page or on an earlier one, has another ID. *)
Theorem GetPolicy_returns_first_match (id : Z)
    (ps : list (R * B)) (last : R * B) (rest : list Reply) (log0 : list Call)
    (fuel : nat) (w' : Server) (policy : Policy) :
  Forall (fun p => pages.next_url parse p <> "") ps ->
  pages.next_url parse last = "" ->
  List.length ps < fuel ->
  GetPolicy fuel id
    (httptest.Build_Server (pages.served (ps ++ [last]) ++ rest) log0)
  = Some (w', (Some policy, None)) ->
  Policy_ID policy = id /\
  exists before after,
    List.concat (map (pages.policies_of d_list) (ps ++ [last]))
    = before ++ policy :: after /\
    (forall q, In q before -> Policy_ID q <> id).
Proof.
  intros Hall Hlast Hfuel H.
  rewrite (GetPolicy_pages id ps last rest log0 fuel Hall Hlast Hfuel) in H.
  destruct (GetPolicy_range id _) as [q |] eqn:E; [| discriminate].
  injection H as _ Hq. subst q.
  apply GetPolicy_range_first. exact E.
Qed.

(** C6.  For every input policy, [CreatePolicy] posts to
    [/alerts_policies.json] and [UpdatePolicy] puts to
    [/alerts_policies/<ID>.json], [<ID>] being the input policy's ID in
    decimal, a request body that wraps the input policy unchanged; each
    returns the policy of the decoded response body with a nil error, so that
    whatever field of the input the server echoes is the same in the result. *)
Theorem CreatePolicy_UpdatePolicy_round_trip (policy : Policy) (r : R) (b : B)
    (rest : list Reply) (log0 : list Call) :
  let reqBody := {| alertPolicyRequestBody_Policy := policy |} in
  let echoed := alertPolicyResponse_Policy (d_policy b) in
  CreatePolicy policy (httptest.Build_Server (Ok (r, b) :: rest) log0)
  = (httptest.Build_Server rest
       (log0 ++ [REST POST "/alerts_policies.json" None (box reqBody)]),
     (Some echoed, None))
  /\
  UpdatePolicy policy (httptest.Build_Server (Ok (r, b) :: rest) log0)
  = (httptest.Build_Server rest
       (log0 ++ [REST PUT ("/alerts_policies/" ++ itoa (Policy_ID policy) ++ ".json")%string
                   None (box reqBody)]),
     (Some echoed, None))
  /\
  forall (X : Type) (field : Policy -> X),
    field echoed = field policy ->
    option_map field
      (fst (snd (CreatePolicy policy (httptest.Build_Server (Ok (r, b) :: rest) log0))))
    = Some (field policy) /\
    option_map field
      (fst (snd (UpdatePolicy policy (httptest.Build_Server (Ok (r, b) :: rest) log0))))
    = Some (field policy).
Proof.
  intros reqBody echoed. split; [reflexivity |]. split; [reflexivity |].
  intros X field H. split; cbn; rewrite <- H; reflexivity.
Qed.

(** C7.  For every account ID and policy ID, whenever the query succeeds
    [DeletePolicyMutation] returns a zero-valued [QueryPolicy] with a nil
    error, whatever the response body holds: the decoded
    [alertsPolicyDelete] ID is not part of what is returned. *)
Theorem DeletePolicyMutation_discards_response (accountID id : Z) (r : R) (b : B)
    (rest : list Reply) (log0 : list Call) :
  DeletePolicyMutation accountID id (httptest.Build_Server (Ok (r, b) :: rest) log0)
  = (httptest.Build_Server rest
       (log0 ++ [GraphQL alertPolicyDeletePolicy
                   [("accountID", box accountID); ("policyID", box id)]]),
     (Some QueryPolicy_zero, None)).
Proof. reflexivity. Qed.

(** ** API access keys *)

(** C4.  For every response whose mutation [errors] array has N > 0 entries,
    the create, update and delete mutations each return no keys and one
    [errors.New] error; its message is the lines [type: message] of the N
    entries in array order, so it contains the line of every entry. *)
Theorem mutation_errors_aggregated (r : R) (b : B) (rest : list Reply)
    (log0 : list Call) (errs : list ApiAccessKeyError) :
  errs <> [] ->
  let message := fold_right String.append "" (map Sprintf_line errs) in
  (forall keys : ApiAccessCreateInput,
      elems (ApiAccessCreateKeyResponse_Errors (APIAccessCreateKeys (k_create b))) = errs ->
      CreateAPIAccessKeysMutation keys (httptest.Build_Server (Ok (r, b) :: rest) log0)
      = (httptest.Build_Server rest
           (log0 ++ [NerdGraph apiAccessKeyCreateKeys [("keys", box keys)]]),
         (None, Some (errorString message))))
  /\
  (forall keys : ApiAccessUpdateInput,
      elems (ApiAccessUpdateKeyResponse_Errors (APIAccessUpdateKeys (k_update b))) = errs ->
      UpdateAPIAccessKeyMutation keys (httptest.Build_Server (Ok (r, b) :: rest) log0)
      = (httptest.Build_Server rest
           (log0 ++ [NerdGraph apiAccessKeyUpdateKeys [("keys", box keys)]]),
         (None, Some (errorString message))))
  /\
  (forall keys : ApiAccessDeleteInput,
      elems (ApiAccessDeleteKeyResponse_Errors (APIAccessDeleteKeys (k_delete b))) = errs ->
      DeleteAPIAccessKeyMutation keys (httptest.Build_Server (Ok (r, b) :: rest) log0)
      = (httptest.Build_Server rest
           (log0 ++ [NerdGraph apiAccessKeyDeleteKeys [("keys", box keys)]]),
         (None, Some (errorString message))))
  /\
  (forall e : ApiAccessKeyError,
      In e errs ->
      exists before after : string,
        message
        = (before
             ++ (ApiAccessKeyError_Type e ++ ": " ++ ApiAccessKeyError_Message e
                   ++ String (ascii_of_nat 10) "")
             ++ after)%string).
Proof.
  intros Hne message.
  repeat split.
  - intros keys H.
    unfold CreateAPIAccessKeysMutation.
    cbn -[formatAPIAccessKeyMutationErrors len Nat.ltb apiAccessKeyCreateKeys].
    rewrite (proj2 (len_pos _)) by (rewrite H; exact Hne).
    rewrite formatAPIAccessKeyMutationErrors_lines, H. reflexivity.
  - intros keys H.
    unfold UpdateAPIAccessKeyMutation.
    cbn -[formatAPIAccessKeyMutationErrors len Nat.ltb apiAccessKeyUpdateKeys].
    rewrite (proj2 (len_pos _)) by (rewrite H; exact Hne).
    rewrite formatAPIAccessKeyMutationErrors_lines, H. reflexivity.
  - intros keys H.
    unfold DeleteAPIAccessKeyMutation.
    cbn -[formatAPIAccessKeyMutationErrors len Nat.ltb apiAccessKeyDeleteKeys].
    rewrite (proj2 (len_pos _)) by (rewrite H; exact Hne).
    rewrite formatAPIAccessKeyMutationErrors_lines, H. reflexivity.
  - intros e Hin. apply (lines_contain errs e Hin).
Qed.

(** C8.  For every response to [GetAPIAccessKeyMutation] or
    [SearchAPIAccessKeys]: when its GraphQL [errors] array is present, the
    method returns nil and an [errors.New] error whose text is the formatted
    error response; when the array is absent, it returns the key, or the
    key list, of the response body with a nil error. *)
Theorem key_queries_check_GraphQL_errors (keyID : string) (keyType : ApiAccessKeyType)
    (params : ApiAccessKeySearchQuery) (r : R) (b : B) (rest : list Reply)
    (log0 : list Call) :
  let got := apiAccessKeyGetResponse_GraphQLErrorResponse (k_get b) in
  let found := apiAccessKeySearchResponse_GraphQLErrorResponse (k_search b) in
  let get_log := log0 ++ [NerdGraph apiAccessKeyGetKey
                            [("id", box keyID); ("keyType", box keyType)]] in
  let search_log := log0 ++ [NerdGraph apiAccessKeySearch [("query", box params)]] in
  (forall es, Errors got = Some es ->
     GetAPIAccessKeyMutation keyID keyType (httptest.Build_Server (Ok (r, b) :: rest) log0)
     = (httptest.Build_Server rest get_log, (None, Some (errorString (format got)))))
  /\
  (Errors got = None ->
     GetAPIAccessKeyMutation keyID keyType (httptest.Build_Server (Ok (r, b) :: rest) log0)
     = (httptest.Build_Server rest get_log,
        (Some (Actor_APIAccess_Key (k_get b)), None)))
  /\
  (forall es, Errors found = Some es ->
     SearchAPIAccessKeys params (httptest.Build_Server (Ok (r, b) :: rest) log0)
     = (httptest.Build_Server rest search_log, (None, Some (errorString (format found)))))
  /\
  (Errors found = None ->
     SearchAPIAccessKeys params (httptest.Build_Server (Ok (r, b) :: rest) log0)
     = (httptest.Build_Server rest search_log,
        (Keys (Actor_APIAccess_KeySearch (k_search b)), None))).
Proof.
  intros got found get_log search_log.
  repeat split.
  - intros es H. unfold GetAPIAccessKeyMutation.
    cbn -[apiAccessKeyGetKey]. fold got. rewrite H. reflexivity.
  - intro H. unfold GetAPIAccessKeyMutation.
    cbn -[apiAccessKeyGetKey]. fold got. rewrite H. reflexivity.
  - intros es H. unfold SearchAPIAccessKeys.
    cbn -[apiAccessKeySearch]. fold found. rewrite H. reflexivity.
  - intro H. unfold SearchAPIAccessKeys.
    cbn -[apiAccessKeySearch]. fold found. rewrite H. reflexivity.
Qed.

(** The three mutations on a successful reply. *)
Lemma CreateAPIAccessKeysMutation_reply (keys : ApiAccessCreateInput) (r : R) (b : B)
    (rest : list Reply) (log0 : list Call) :
  let resp := APIAccessCreateKeys (k_create b) in
  CreateAPIAccessKeysMutation keys (httptest.Build_Server (Ok (r, b) :: rest) log0)
  = (httptest.Build_Server rest
       (log0 ++ [NerdGraph apiAccessKeyCreateKeys [("keys", box keys)]]),
     if (0 <? len (ApiAccessCreateKeyResponse_Errors resp))%nat
     then (None, Some (errorString (formatAPIAccessKeyMutationErrors
                                      (ApiAccessCreateKeyResponse_Errors resp))))
     else (CreatedKeys resp, None)).
Proof.
  intro resp. unfold CreateAPIAccessKeysMutation.
  cbn -[formatAPIAccessKeyMutationErrors len Nat.ltb apiAccessKeyCreateKeys].
  fold resp. destruct (0 <? len _)%nat; reflexivity.
Qed.

Lemma UpdateAPIAccessKeyMutation_reply (keys : ApiAccessUpdateInput) (r : R) (b : B)
    (rest : list Reply) (log0 : list Call) :
  let resp := APIAccessUpdateKeys (k_update b) in
  UpdateAPIAccessKeyMutation keys (httptest.Build_Server (Ok (r, b) :: rest) log0)
  = (httptest.Build_Server rest
       (log0 ++ [NerdGraph apiAccessKeyUpdateKeys [("keys", box keys)]]),
     if (0 <? len (ApiAccessUpdateKeyResponse_Errors resp))%nat
     then (None, Some (errorString (formatAPIAccessKeyMutationErrors
                                      (ApiAccessUpdateKeyResponse_Errors resp))))
     else (UpdatedKeys resp, None)).
Proof.
  intro resp. unfold UpdateAPIAccessKeyMutation.
  cbn -[formatAPIAccessKeyMutationErrors len Nat.ltb apiAccessKeyUpdateKeys].
  fold resp. destruct (0 <? len _)%nat; reflexivity.
Qed.

Lemma DeleteAPIAccessKeyMutation_reply (keys : ApiAccessDeleteInput) (r : R) (b : B)
    (rest : list Reply) (log0 : list Call) :
  let resp := APIAccessDeleteKeys (k_delete b) in
  DeleteAPIAccessKeyMutation keys (httptest.Build_Server (Ok (r, b) :: rest) log0)
  = (httptest.Build_Server rest
       (log0 ++ [NerdGraph apiAccessKeyDeleteKeys [("keys", box keys)]]),
     if (0 <? len (ApiAccessDeleteKeyResponse_Errors resp))%nat
     then (None, Some (errorString (formatAPIAccessKeyMutationErrors
                                      (ApiAccessDeleteKeyResponse_Errors resp))))
     else (DeletedKeys resp, None)).
Proof.
  intro resp. unfold DeleteAPIAccessKeyMutation.
  cbn -[formatAPIAccessKeyMutationErrors len Nat.ltb apiAccessKeyDeleteKeys].
  fold resp. destruct (0 <? len _)%nat; reflexivity.
Qed.

Lemma GetAPIAccessKeyMutation_reply (keyID : string) (keyType : ApiAccessKeyType)
    (r : R) (b : B) (rest : list Reply) (log0 : list Call) :
  let got := apiAccessKeyGetResponse_GraphQLErrorResponse (k_get b) in
  GetAPIAccessKeyMutation keyID keyType (httptest.Build_Server (Ok (r, b) :: rest) log0)
  = (httptest.Build_Server rest
       (log0 ++ [NerdGraph apiAccessKeyGetKey
                   [("id", box keyID); ("keyType", box keyType)]]),
     match Errors got with
     | Some _ => (None, Some (errorString (format got)))
     | None => (Some (Actor_APIAccess_Key (k_get b)), None)
     end).
Proof.
  intro got. unfold GetAPIAccessKeyMutation. cbn -[apiAccessKeyGetKey].
  fold got. destruct (Errors got); reflexivity.
Qed.

Lemma SearchAPIAccessKeys_reply (params : ApiAccessKeySearchQuery)
    (r : R) (b : B) (rest : list Reply) (log0 : list Call) :
  let found := apiAccessKeySearchResponse_GraphQLErrorResponse (k_search b) in
  SearchAPIAccessKeys params (httptest.Build_Server (Ok (r, b) :: rest) log0)
  = (httptest.Build_Server rest
       (log0 ++ [NerdGraph apiAccessKeySearch [("query", box params)]]),
     match Errors found with
     | Some _ => (None, Some (errorString (format found)))
     | None => (Keys (Actor_APIAccess_KeySearch (k_search b)), None)
     end).
Proof.
  intro found. unfold SearchAPIAccessKeys. cbn -[apiAccessKeySearch].
  fold found. destruct (Errors found); reflexivity.
Qed.

(** C10.  The API-level error checks differ.  With an [errors] array that is
    present but empty, [GetAPIAccessKeyMutation] and [SearchAPIAccessKeys]
    return an error and nil; the create, update and delete mutations return
    the keys of the body with a nil error, and they return an error exactly
    when their [errors] array has at least one entry. *)
Theorem error_checks_differ_on_empty_array (keyID : string) (keyType : ApiAccessKeyType)
    (params : ApiAccessKeySearchQuery) (ckeys : ApiAccessCreateInput)
    (ukeys : ApiAccessUpdateInput) (dkeys : ApiAccessDeleteInput)
    (r : R) (b : B) (rest : list Reply) (log0 : list Call) :
  let w := httptest.Build_Server (Ok (r, b) :: rest) log0 in
  let got := apiAccessKeyGetResponse_GraphQLErrorResponse (k_get b) in
  let found := apiAccessKeySearchResponse_GraphQLErrorResponse (k_search b) in
  let created := APIAccessCreateKeys (k_create b) in
  let updated := APIAccessUpdateKeys (k_update b) in
  let deleted := APIAccessDeleteKeys (k_delete b) in
  (Errors got = Some [] ->
     snd (GetAPIAccessKeyMutation keyID keyType w)
     = (None, Some (errorString (format got))))
  /\
  (Errors found = Some [] ->
     snd (SearchAPIAccessKeys params w) = (None, Some (errorString (format found))))
  /\
  (ApiAccessCreateKeyResponse_Errors created = Some [] ->
     snd (CreateAPIAccessKeysMutation ckeys w) = (CreatedKeys created, None))
  /\
  (ApiAccessUpdateKeyResponse_Errors updated = Some [] ->
     snd (UpdateAPIAccessKeyMutation ukeys w) = (UpdatedKeys updated, None))
  /\
  (ApiAccessDeleteKeyResponse_Errors deleted = Some [] ->
     snd (DeleteAPIAccessKeyMutation dkeys w) = (DeletedKeys deleted, None))
  /\
  (snd (snd (CreateAPIAccessKeysMutation ckeys w)) <> None <->
   elems (ApiAccessCreateKeyResponse_Errors created) <> [])
  /\
  (snd (snd (UpdateAPIAccessKeyMutation ukeys w)) <> None <->
   elems (ApiAccessUpdateKeyResponse_Errors updated) <> [])
  /\
  (snd (snd (DeleteAPIAccessKeyMutation dkeys w)) <> None <->
   elems (ApiAccessDeleteKeyResponse_Errors deleted) <> []).
Proof.
  intros w got found created updated deleted. unfold w.
  rewrite GetAPIAccessKeyMutation_reply, SearchAPIAccessKeys_reply,
    CreateAPIAccessKeysMutation_reply, UpdateAPIAccessKeyMutation_reply,
    DeleteAPIAccessKeyMutation_reply.
  cbv zeta. fold got found created updated deleted. cbn [snd].
  refine (conj _ (conj _ (conj _ (conj _ (conj _ (conj _ (conj _ _))))))).
  - intro H. rewrite H. reflexivity.
  - intro H. rewrite H. reflexivity.
  - intro H. rewrite H. reflexivity.
  - intro H. rewrite H. reflexivity.
  - intro H. rewrite H. reflexivity.
  - destruct (0 <? len _)%nat eqn:E; cbn [snd].
    + apply len_pos in E. split; [intros _; exact E | discriminate].
    + apply len_zero in E. split; [intro H; exfalso; apply H; reflexivity | congruence].
  - destruct (0 <? len _)%nat eqn:E; cbn [snd].
    + apply len_pos in E. split; [intros _; exact E | discriminate].
    + apply len_zero in E. split; [intro H; exfalso; apply H; reflexivity | congruence].
  - destruct (0 <? len _)%nat eqn:E; cbn [snd].
    + apply len_pos in E. split; [intros _; exact E | discriminate].
    + apply len_zero in E. split; [intro H; exfalso; apply H; reflexivity | congruence].
Qed.

(** ** Every method *)

(** C5.  For every method of the two clients: when the transport fails on a
    request, be it the only one or one that comes after pages that were
    served well, the method returns a nil result together with the
    transport's error, whatever the earlier pages held; and when the
    transport succeeds (and the response carries no API-level error, and for
    [GetPolicy] some policy has the ID) it returns the result decoded from
    the response, or the list collected from the pages, with a nil error. *)
Theorem transport_error_or_typed_result
    (e : error) (r : R) (b : B) (rest : list Reply) (log0 : list Call)
    (ps : list (R * B)) (last : R * B) (qs : list (R * B)) (qlast : R * B)
    (fuel : nat)
    (params : option ListPoliciesParams) (id accountID policyID : Z)
    (policy : Policy) (created : QueryPolicyCreateInput)
    (updated : QueryPolicyUpdateInput) (criteria : AlertsPoliciesSearchCriteriaInput)
    (ckeys : ApiAccessCreateInput) (ukeys : ApiAccessUpdateInput)
    (dkeys : ApiAccessDeleteInput) (keyID : string) (keyType : ApiAccessKeyType)
    (query : ApiAccessKeySearchQuery) :
  Forall (fun p => pages.next_url parse p <> "") ps ->
  pages.next_url parse last = "" ->
  Forall (fun p => pages.next_cursor d_search p <> None) qs ->
  pages.next_cursor d_search qlast = None ->
  List.length ps < fuel ->
  List.length qs < fuel ->
  let failing := httptest.Build_Server (Err e :: rest) log0 in
  let failing_after (served : list (R * B)) :=
    httptest.Build_Server (pages.served served ++ Err e :: rest) log0 in
  let ok := httptest.Build_Server (Ok (r, b) :: rest) log0 in
  let ok_pages (served : list (R * B)) :=
    httptest.Build_Server (pages.served served ++ rest) log0 in
  let listing := List.concat (map (pages.policies_of d_list) (ps ++ [last])) in
  (* the transport fails *)
  (option_map snd (ListPolicies fuel params (failing_after ps)) = Some (None, Some e)
   /\ option_map snd (GetPolicy fuel id (failing_after ps)) = Some (None, Some e)
   /\ snd (CreatePolicy policy failing) = (None, Some e)
   /\ snd (UpdatePolicy policy failing) = (None, Some e)
   /\ snd (DeletePolicy id failing) = (None, Some e)
   /\ snd (CreatePolicyMutation accountID created failing) = (None, Some e)
   /\ snd (UpdatePolicyMutation accountID policyID updated failing) = (None, Some e)
   /\ snd (QueryPolicy_ accountID id failing) = (None, Some e)
   /\ option_map (fun x => (fst (fst (snd x)), snd (snd x)))
        (QueryPolicySearch fuel accountID criteria (failing_after qs))
      = Some (None, Some e)
   /\ snd (DeletePolicyMutation accountID id failing) = (None, Some e)
   /\ snd (CreateAPIAccessKeysMutation ckeys failing) = (None, Some e)
   /\ snd (GetAPIAccessKeyMutation keyID keyType failing) = (None, Some e)
   /\ snd (SearchAPIAccessKeys query failing) = (None, Some e)
   /\ snd (UpdateAPIAccessKeyMutation ukeys failing) = (None, Some e)
   /\ snd (DeleteAPIAccessKeyMutation dkeys failing) = (None, Some e))
  /\
  (* the transport succeeds *)
  (option_map snd (ListPolicies fuel params (ok_pages (ps ++ [last])))
   = Some (Some listing, None)
   /\ ((exists p, In p listing /\ Policy_ID p = id) ->
       exists found,
         option_map snd (GetPolicy fuel id (ok_pages (ps ++ [last])))
         = Some (Some found, None))
   /\ snd (CreatePolicy policy ok) = (Some (alertPolicyResponse_Policy (d_policy b)), None)
   /\ snd (UpdatePolicy policy ok) = (Some (alertPolicyResponse_Policy (d_policy b)), None)
   /\ snd (DeletePolicy id ok) = (Some (alertPolicyResponse_Policy (d_policy b)), None)
   /\ snd (CreatePolicyMutation accountID created ok)
      = (Some (alertQueryPolicyCreateResponse_QueryPolicy (d_create b)), None)
   /\ snd (UpdatePolicyMutation accountID policyID updated ok)
      = (Some (alertQueryPolicyUpdateResponse_QueryPolicy (d_update b)), None)
   /\ snd (QueryPolicy_ accountID id ok)
      = (Some (Actor_Account_Alerts_Policy (d_query b)), None)
   /\ (exists pointers cells,
         option_map snd (QueryPolicySearch fuel accountID criteria (ok_pages (qs ++ [qlast])))
         = Some ((Some pointers, cells), None))
   /\ snd (DeletePolicyMutation accountID id ok) = (Some QueryPolicy_zero, None)
   /\ (elems (ApiAccessCreateKeyResponse_Errors (APIAccessCreateKeys (k_create b))) = [] ->
       snd (CreateAPIAccessKeysMutation ckeys ok)
       = (CreatedKeys (APIAccessCreateKeys (k_create b)), None))
   /\ (Errors (apiAccessKeyGetResponse_GraphQLErrorResponse (k_get b)) = None ->
       snd (GetAPIAccessKeyMutation keyID keyType ok)
       = (Some (Actor_APIAccess_Key (k_get b)), None))
   /\ (Errors (apiAccessKeySearchResponse_GraphQLErrorResponse (k_search b)) = None ->
       snd (SearchAPIAccessKeys query ok)
       = (Keys (Actor_APIAccess_KeySearch (k_search b)), None))
   /\ (elems (ApiAccessUpdateKeyResponse_Errors (APIAccessUpdateKeys (k_update b))) = [] ->
       snd (UpdateAPIAccessKeyMutation ukeys ok)
       = (UpdatedKeys (APIAccessUpdateKeys (k_update b)), None))
   /\ (elems (ApiAccessDeleteKeyResponse_Errors (APIAccessDeleteKeys (k_delete b))) = [] ->
       snd (DeleteAPIAccessKeyMutation dkeys ok)
       = (DeletedKeys (APIAccessDeleteKeys (k_delete b)), None))).
Proof.
  intros Hps Hlast Hqs Hqlast Hfuel Hqfuel failing failing_after ok ok_pages listing.
  assert (Hlist_fail : forall params',
             ListPolicies fuel params' (failing_after ps)
             = Some (httptest.Build_Server rest
                       (log0 ++ map (pages.list_request params')
                                  ("/alerts_policies.json" :: map (pages.next_url parse) ps)),
                     (None, Some e))).
  { intro params'. unfold ListPolicies, failing_after.
    apply ListPolicies_for_failing; auto. discriminate. }
  split.
  - refine (conj _ (conj _ (conj _ (conj _ (conj _ (conj _ (conj _ (conj _
             (conj _ (conj _ (conj _ (conj _ (conj _ (conj _ _))))))))))))));
      try reflexivity.
    + rewrite Hlist_fail. reflexivity.
    + rewrite (GetPolicy_of_ListPolicies_error (c := a) fuel id _ _ _ _ (Hlist_fail None)).
      reflexivity.
    + unfold failing_after.
      rewrite QueryPolicySearch_failing by assumption. reflexivity.
  - refine (conj _ (conj _ (conj _ (conj _ (conj _ (conj _ (conj _ (conj _
             (conj _ (conj _ (conj _ (conj _ (conj _ (conj _ _))))))))))))));
      try reflexivity.
    + unfold ok_pages. rewrite ListPolicies_pages by assumption. reflexivity.
    + intro Hex. unfold ok_pages. rewrite GetPolicy_pages by assumption.
      fold listing. destruct (GetPolicy_range_some id listing Hex) as [found E].
      rewrite E. exists found. reflexivity.
    + destruct (search_pages_Some (qs ++ [qlast]) [] []) as [l [h E]].
      exists l, h. unfold ok_pages.
      rewrite QueryPolicySearch_pages by assumption. cbn [option_map snd].
      exact (f_equal (fun st => Some (st, @None error)) E).
    + intro H. unfold ok. rewrite CreateAPIAccessKeysMutation_reply. cbv zeta.
      rewrite (proj2 (len_zero _) H). reflexivity.
    + intro H. unfold ok. rewrite GetAPIAccessKeyMutation_reply. cbv zeta.
      rewrite H. reflexivity.
    + intro H. unfold ok. rewrite SearchAPIAccessKeys_reply. cbv zeta.
      rewrite H. reflexivity.
    + intro H. unfold ok. rewrite UpdateAPIAccessKeyMutation_reply. cbv zeta.
      rewrite (proj2 (len_zero _) H). reflexivity.
    + intro H. unfold ok. rewrite DeleteAPIAccessKeyMutation_reply. cbv zeta.
      rewrite (proj2 (len_zero _) H). reflexivity.
Qed.

(* ================================================================== *)
(** ** Further properties: any script *)

(** What serving one request does to the server, whatever the script. *)
Lemma serve_world (c : Call) (w : Server) :
  fst (httptest.serve B R c w)
  = httptest.Build_Server (tl (httptest.script w)) (httptest.log w ++ [c]).
Proof.
  destruct w as [script log]. unfold httptest.serve. cbn [httptest.script httptest.log].
  destruct script; reflexivity.
Qed.

Lemma ListPolicies_for_eof (params : option ListPoliciesParams) (fuel : nat)
    (url : string) (acc : slice Policy) (log0 : list Call) :
  url <> "" ->
  ListPolicies_for (S fuel) params url acc (httptest.Build_Server [] log0)
  = Some (httptest.Build_Server [] (log0 ++ [pages.list_request params url]),
          (None, Some (httptest.EOF))).
Proof.
  intro Hurl. cbn [ListPolicies_for]. rewrite (eqb_empty_false _ Hurl). reflexivity.
Qed.

(** The loop of [ListPolicies] on an arbitrary script: what it returns is
    either a list or an error, and its requests are one per reply taken. *)
Lemma ListPolicies_for_any (params : option ListPoliciesParams) :
  forall (fuel : nat) (url : string) (acc : list Policy) (w w' : Server)
         (res : slice Policy) (err : option error),
    ListPolicies_for fuel params url (Some acc) w = Some (w', (res, err)) ->
    (res = None <-> err <> None) /\
    exists urls : list string,
      httptest.log w' = httptest.log w ++ map (pages.list_request params) urls /\
      httptest.script w' = skipn (List.length urls) (httptest.script w) /\
      (url <> "" -> exists more, urls = url :: more).
Proof.
  induction fuel as [| fuel IH]; intros url acc w w' res err H.
  - cbn [ListPolicies_for] in H.
    destruct (String.eqb_spec url "") as [-> | Hurl]; [| discriminate].
    injection H as <- <- <-. split; [split; [discriminate | congruence] |].
    exists []. cbn. rewrite app_nil_r. repeat split. congruence.
  - destruct (String.eqb_spec url "") as [-> | Hurl].
    + rewrite ListPolicies_for_stop in H. injection H as <- <- <-.
      split; [split; [discriminate | congruence] |].
      exists []. cbn. rewrite app_nil_r. repeat split. congruence.
    + destruct w as [script log0]. destruct script as [| [p | e] rest].
      * rewrite ListPolicies_for_eof in H by exact Hurl. injection H as <- <- <-.
        split; [split; [discriminate | reflexivity] |].
        exists [url]. cbn. repeat split. intros _. exists []. reflexivity.
      * rewrite ListPolicies_for_page in H by exact Hurl. rewrite append_Some in H.
        destruct (IH _ _ _ _ _ _ H) as [Hxor [urls [Hlog [Hscript _]]]].
        split; [exact Hxor |].
        exists (url :: urls). cbn in *. rewrite Hlog, <- app_assoc. cbn.
        repeat split; [exact Hscript |]. intros _. exists urls. reflexivity.
      * rewrite ListPolicies_for_error in H by exact Hurl. injection H as <- <- <-.
        split; [split; [discriminate | reflexivity] |].
        exists [url]. cbn. repeat split. intros _. exists []. reflexivity.
Qed.

Lemma QueryPolicySearch_for_eof (fuel : nat) (accountID : Z)
    (params : AlertsPoliciesSearchCriteriaInput) (cursor : option string)
    (policies : slice ptr) (h : heap) (log0 : list Call) :
  QueryPolicySearch_for (S fuel) accountID params cursor policies h
    (httptest.Build_Server [] log0)
  = Some (httptest.Build_Server []
            (log0 ++ [pages.search_request accountID params cursor]),
          ((None, h), Some (httptest.EOF))).
Proof. reflexivity. Qed.

Lemma search_page_Some (p : R * B) (l : list ptr) (h : heap) :
  exists l' h', pages.search_page d_search (Some l, h) p = (Some l', h').
Proof. unfold pages.search_page. cbn [fst snd]. apply QueryPolicySearch_range_Some. Qed.

(** The loop of [QueryPolicySearch] on an arbitrary script. *)
Lemma QueryPolicySearch_for_any (accountID : Z)
    (params : AlertsPoliciesSearchCriteriaInput) :
  forall (fuel : nat) (cursor : option string) (l : list ptr) (h : heap)
         (w w' : Server) (res : slice ptr) (cells : heap) (err : option error),
    QueryPolicySearch_for fuel accountID params cursor (Some l) h w
    = Some (w', ((res, cells), err)) ->
    (res = None <-> err <> None) /\
    exists cursors : list (option string),
      httptest.log w'
      = httptest.log w ++ map (pages.search_request accountID params) (cursor :: cursors) /\
      httptest.script w' = skipn (S (List.length cursors)) (httptest.script w).
Proof.
  induction fuel as [| fuel IH]; intros cursor l h w w' res cells err H;
    [discriminate |].
  destruct w as [script log0]. destruct script as [| [p | e] rest].
  - rewrite QueryPolicySearch_for_eof in H. injection H as <- <- <- <-.
    split; [split; [discriminate | reflexivity] |].
    exists []. split; reflexivity.
  - rewrite QueryPolicySearch_for_page in H. cbv zeta in H.
    destruct (search_page_Some p l h) as [l' [h' E]].
    repeat match type of H with
           | context [pages.search_page d_search ?x p] =>
               replace (pages.search_page d_search x p) with (Some l', h') in H
                 by (symmetry; exact E)
           end.
    cbn [fst snd] in H.
    destruct (pages.next_cursor d_search p) as [c |].
    + destruct (IH _ _ _ _ _ _ _ _ H) as [Hxor [cursors [Hlog Hscript]]].
      split; [exact Hxor |].
      exists (Some c :: cursors). cbn in *. rewrite Hlog, <- app_assoc.
      split; [reflexivity | exact Hscript].
    + injection H as <- <- <- <-.
      split; [split; [discriminate | congruence] |].
      exists []. split; reflexivity.
  - rewrite QueryPolicySearch_for_error in H. injection H as <- <- <- <-.
    split; [split; [discriminate | reflexivity] |].
    exists []. split; reflexivity.
Qed.

(** Splitting a server into the cases of its next reply. *)
Ltac next_reply w :=
  let script := fresh "script" in
  let log0 := fresh "log0" in
  let r := fresh "r" in
  let b := fresh "b" in
  let e := fresh "e" in
  let rest := fresh "rest" in
  destruct w as [script log0]; destruct script as [| [[r b] | e] rest].

(** X1.  Result and error exclude each other.  Whatever the transport
    replies, each method of the alerts client, and [GetAPIAccessKeyMutation],
    returns a nil result exactly when it returns a non-nil error. *)
Theorem result_nil_iff_error (w : Server) (fuel : nat)
    (params : option ListPoliciesParams) (id accountID policyID : Z)
    (policy : Policy) (created : QueryPolicyCreateInput)
    (updated : QueryPolicyUpdateInput) (criteria : AlertsPoliciesSearchCriteriaInput)
    (keyID : string) (keyType : ApiAccessKeyType) :
  (forall w' res err,
      ListPolicies fuel params w = Some (w', (res, err)) ->
      (res = None <-> err <> None))
  /\ (forall w' res err,
         GetPolicy fuel id w = Some (w', (res, err)) ->
         (res = None <-> err <> None))
  /\ (forall w' res cells err,
         QueryPolicySearch fuel accountID criteria w = Some (w', ((res, cells), err)) ->
         (res = None <-> err <> None))
  /\ (fst (snd (CreatePolicy policy w)) = None
      <-> snd (snd (CreatePolicy policy w)) <> None)
  /\ (fst (snd (UpdatePolicy policy w)) = None
      <-> snd (snd (UpdatePolicy policy w)) <> None)
  /\ (fst (snd (DeletePolicy id w)) = None
      <-> snd (snd (DeletePolicy id w)) <> None)
  /\ (fst (snd (CreatePolicyMutation accountID created w)) = None
      <-> snd (snd (CreatePolicyMutation accountID created w)) <> None)
  /\ (fst (snd (UpdatePolicyMutation accountID policyID updated w)) = None
      <-> snd (snd (UpdatePolicyMutation accountID policyID updated w)) <> None)
  /\ (fst (snd (QueryPolicy_ accountID id w)) = None
      <-> snd (snd (QueryPolicy_ accountID id w)) <> None)
  /\ (fst (snd (DeletePolicyMutation accountID id w)) = None
      <-> snd (snd (DeletePolicyMutation accountID id w)) <> None)
  /\ (fst (snd (GetAPIAccessKeyMutation keyID keyType w)) = None
      <-> snd (snd (GetAPIAccessKeyMutation keyID keyType w)) <> None).
Proof.
  assert (Hlist : forall params' w' res err,
             ListPolicies fuel params' w = Some (w', (res, err)) ->
             (res = None <-> err <> None)).
  { intros params' w' res err H. unfold ListPolicies in H.
    apply (ListPolicies_for_any params' _ _ _ _ _ _ _ H). }
  refine (conj _ (conj _ (conj _ (conj _ (conj _ (conj _ (conj _ (conj _
           (conj _ (conj _ _)))))))))).
  - apply Hlist.
  - intros w' res err H. unfold GetPolicy in H.
    destruct (@ListPolicies a fuel None w) as [[w1 [policies [e |]]] |] eqn:E;
      [| | discriminate].
    + injection H as <- <- <-. split; [discriminate | reflexivity].
    + destruct (GetPolicy_range id (elems policies)); injection H as <- <- <-;
        split; congruence.
  - intros w' res cells err H. unfold QueryPolicySearch in H.
    apply (QueryPolicySearch_for_any accountID criteria _ _ _ _ _ _ _ _ _ H).
  - next_reply w; cbn; split; congruence.
  - next_reply w; cbn; split; congruence.
  - next_reply w; cbn; split; congruence.
  - next_reply w; cbn -[alertsPolicyCreatePolicy]; split; congruence.
  - next_reply w; cbn -[alertsPolicyUpdatePolicy]; split; congruence.
  - next_reply w; cbn -[alertPolicyQueryPolicy]; split; congruence.
  - next_reply w; cbn -[alertPolicyDeletePolicy]; split; congruence.
  - next_reply w.
    + cbn -[apiAccessKeyGetKey]; split; congruence.
    + rewrite GetAPIAccessKeyMutation_reply. cbv zeta.
      destruct (Errors _); cbn; split; congruence.
    + cbn -[apiAccessKeyGetKey]; split; congruence.
Qed.

(** X2.  The four methods that return a list of keys return a nil list
    whenever they return an error, whatever the transport replies; but a nil
    list does not mean an error: a response without keys and without errors
    gives a nil list together with a nil error. *)
Theorem key_lists_may_be_nil_without_error (w : Server)
    (ckeys : ApiAccessCreateInput) (ukeys : ApiAccessUpdateInput)
    (dkeys : ApiAccessDeleteInput) (query : ApiAccessKeySearchQuery)
    (r : R) (b : B) (rest : list Reply) (log0 : list Call) :
  let ok := httptest.Build_Server (Ok (r, b) :: rest) log0 in
  ((snd (snd (CreateAPIAccessKeysMutation ckeys w)) <> None ->
    fst (snd (CreateAPIAccessKeysMutation ckeys w)) = None)
   /\ (snd (snd (SearchAPIAccessKeys query w)) <> None ->
       fst (snd (SearchAPIAccessKeys query w)) = None)
   /\ (snd (snd (UpdateAPIAccessKeyMutation ukeys w)) <> None ->
       fst (snd (UpdateAPIAccessKeyMutation ukeys w)) = None)
   /\ (snd (snd (DeleteAPIAccessKeyMutation dkeys w)) <> None ->
       fst (snd (DeleteAPIAccessKeyMutation dkeys w)) = None))
  /\
  ((CreatedKeys (APIAccessCreateKeys (k_create b)) = None ->
    elems (ApiAccessCreateKeyResponse_Errors (APIAccessCreateKeys (k_create b))) = [] ->
    snd (CreateAPIAccessKeysMutation ckeys ok) = (None, None))
   /\ (Keys (Actor_APIAccess_KeySearch (k_search b)) = None ->
       Errors (apiAccessKeySearchResponse_GraphQLErrorResponse (k_search b)) = None ->
       snd (SearchAPIAccessKeys query ok) = (None, None))
   /\ (UpdatedKeys (APIAccessUpdateKeys (k_update b)) = None ->
       elems (ApiAccessUpdateKeyResponse_Errors (APIAccessUpdateKeys (k_update b))) = [] ->
       snd (UpdateAPIAccessKeyMutation ukeys ok) = (None, None))
   /\ (DeletedKeys (APIAccessDeleteKeys (k_delete b)) = None ->
       elems (ApiAccessDeleteKeyResponse_Errors (APIAccessDeleteKeys (k_delete b))) = [] ->
       snd (DeleteAPIAccessKeyMutation dkeys ok) = (None, None))).
Proof.
  intro ok. split.
  - refine (conj _ (conj _ (conj _ _))).
    + next_reply w.
      * cbn -[apiAccessKeyCreateKeys]. reflexivity.
      * rewrite CreateAPIAccessKeysMutation_reply. cbv zeta.
        destruct (0 <? len _)%nat; cbn; congruence.
      * cbn -[apiAccessKeyCreateKeys]. reflexivity.
    + next_reply w.
      * cbn -[apiAccessKeySearch]. reflexivity.
      * rewrite SearchAPIAccessKeys_reply. cbv zeta.
        destruct (Errors _); cbn; congruence.
      * cbn -[apiAccessKeySearch]. reflexivity.
    + next_reply w.
      * cbn -[apiAccessKeyUpdateKeys]. reflexivity.
      * rewrite UpdateAPIAccessKeyMutation_reply. cbv zeta.
        destruct (0 <? len _)%nat; cbn; congruence.
      * cbn -[apiAccessKeyUpdateKeys]. reflexivity.
    + next_reply w.
      * cbn -[apiAccessKeyDeleteKeys]. reflexivity.
      * rewrite DeleteAPIAccessKeyMutation_reply. cbv zeta.
        destruct (0 <? len _)%nat; cbn; congruence.
      * cbn -[apiAccessKeyDeleteKeys]. reflexivity.
  - unfold ok. refine (conj _ (conj _ (conj _ _))).
    + intros Hk He. rewrite CreateAPIAccessKeysMutation_reply. cbv zeta.
      rewrite (proj2 (len_zero _) He), Hk. reflexivity.
    + intros Hk He. rewrite SearchAPIAccessKeys_reply. cbv zeta.
      rewrite He, Hk. reflexivity.
    + intros Hk He. rewrite UpdateAPIAccessKeyMutation_reply. cbv zeta.
      rewrite (proj2 (len_zero _) He), Hk. reflexivity.
    + intros Hk He. rewrite DeleteAPIAccessKeyMutation_reply. cbv zeta.
      rewrite (proj2 (len_zero _) He), Hk. reflexivity.
Qed.

(** The server after a call of a method that does not paginate. *)
Lemma single_call_server (w : Server)
    (id accountID policyID : Z) (policy : Policy)
    (created : QueryPolicyCreateInput) (updated : QueryPolicyUpdateInput)
    (ckeys : ApiAccessCreateInput) (ukeys : ApiAccessUpdateInput)
    (dkeys : ApiAccessDeleteInput) (keyID : string) (keyType : ApiAccessKeyType)
    (query : ApiAccessKeySearchQuery) :
  let after (c : Call) :=
    httptest.Build_Server (tl (httptest.script w)) (httptest.log w ++ [c]) in
  let reqBody := box {| alertPolicyRequestBody_Policy := policy |} in
  fst (CreatePolicy policy w) = after (REST POST "/alerts_policies.json" None reqBody)
  /\ fst (UpdatePolicy policy w)
     = after (REST PUT ("/alerts_policies/" ++ itoa (Policy_ID policy) ++ ".json")%string
                None reqBody)
  /\ fst (DeletePolicy id w)
     = after (REST DELETE ("/alerts_policies/" ++ itoa id ++ ".json")%string None None)
  /\ fst (CreatePolicyMutation accountID created w)
     = after (GraphQL alertsPolicyCreatePolicy
                [("accountID", box accountID); ("policy", box created)])
  /\ fst (UpdatePolicyMutation accountID policyID updated w)
     = after (GraphQL alertsPolicyUpdatePolicy
                [("accountID", box accountID); ("policyID", box policyID);
                 ("policy", box updated)])
  /\ fst (QueryPolicy_ accountID id w)
     = after (GraphQL alertPolicyQueryPolicy
                [("accountID", box accountID); ("policyID", box id)])
  /\ fst (DeletePolicyMutation accountID id w)
     = after (GraphQL alertPolicyDeletePolicy
                [("accountID", box accountID); ("policyID", box id)])
  /\ fst (CreateAPIAccessKeysMutation ckeys w)
     = after (NerdGraph apiAccessKeyCreateKeys [("keys", box ckeys)])
  /\ fst (GetAPIAccessKeyMutation keyID keyType w)
     = after (NerdGraph apiAccessKeyGetKey [("id", box keyID); ("keyType", box keyType)])
  /\ fst (SearchAPIAccessKeys query w)
     = after (NerdGraph apiAccessKeySearch [("query", box query)])
  /\ fst (UpdateAPIAccessKeyMutation ukeys w)
     = after (NerdGraph apiAccessKeyUpdateKeys [("keys", box ukeys)])
  /\ fst (DeleteAPIAccessKeyMutation dkeys w)
     = after (NerdGraph apiAccessKeyDeleteKeys [("keys", box dkeys)]).
Proof.
  intros after reqBody. unfold after.
  refine (conj _ (conj _ (conj _ (conj _ (conj _ (conj _ (conj _ (conj _
           (conj _ (conj _ (conj _ _))))))))))).
  - next_reply w; reflexivity.
  - next_reply w; reflexivity.
  - next_reply w; reflexivity.
  - next_reply w; reflexivity.
  - next_reply w; reflexivity.
  - next_reply w; reflexivity.
  - next_reply w; reflexivity.
  - next_reply w; [reflexivity | | reflexivity].
    rewrite CreateAPIAccessKeysMutation_reply. reflexivity.
  - next_reply w; [reflexivity | | reflexivity].
    rewrite GetAPIAccessKeyMutation_reply. reflexivity.
  - next_reply w; [reflexivity | | reflexivity].
    rewrite SearchAPIAccessKeys_reply. reflexivity.
  - next_reply w; [reflexivity | | reflexivity].
    rewrite UpdateAPIAccessKeyMutation_reply. reflexivity.
  - next_reply w; [reflexivity | | reflexivity].
    rewrite DeleteAPIAccessKeyMutation_reply. reflexivity.
Qed.

(** X3.  One request per call.  Whatever the transport replies (a body, an
    error, or nothing more in the script), each of the twelve methods that do
    not paginate makes exactly one request, and it is the one shown. *)
Theorem one_request_per_call (w : Server)
    (id accountID policyID : Z) (policy : Policy)
    (created : QueryPolicyCreateInput) (updated : QueryPolicyUpdateInput)
    (ckeys : ApiAccessCreateInput) (ukeys : ApiAccessUpdateInput)
    (dkeys : ApiAccessDeleteInput) (keyID : string) (keyType : ApiAccessKeyType)
    (query : ApiAccessKeySearchQuery) :
  let after (c : Call) :=
    httptest.Build_Server (tl (httptest.script w)) (httptest.log w ++ [c]) in
  let reqBody := box {| alertPolicyRequestBody_Policy := policy |} in
  fst (CreatePolicy policy w) = after (REST POST "/alerts_policies.json" None reqBody)
  /\ fst (UpdatePolicy policy w)
     = after (REST PUT ("/alerts_policies/" ++ itoa (Policy_ID policy) ++ ".json")%string
                None reqBody)
  /\ fst (DeletePolicy id w)
     = after (REST DELETE ("/alerts_policies/" ++ itoa id ++ ".json")%string None None)
  /\ fst (CreatePolicyMutation accountID created w)
     = after (GraphQL alertsPolicyCreatePolicy
                [("accountID", box accountID); ("policy", box created)])
  /\ fst (UpdatePolicyMutation accountID policyID updated w)
     = after (GraphQL alertsPolicyUpdatePolicy
                [("accountID", box accountID); ("policyID", box policyID);
                 ("policy", box updated)])
  /\ fst (QueryPolicy_ accountID id w)
     = after (GraphQL alertPolicyQueryPolicy
                [("accountID", box accountID); ("policyID", box id)])
  /\ fst (DeletePolicyMutation accountID id w)
     = after (GraphQL alertPolicyDeletePolicy
                [("accountID", box accountID); ("policyID", box id)])
  /\ fst (CreateAPIAccessKeysMutation ckeys w)
     = after (NerdGraph apiAccessKeyCreateKeys [("keys", box ckeys)])
  /\ fst (GetAPIAccessKeyMutation keyID keyType w)
     = after (NerdGraph apiAccessKeyGetKey [("id", box keyID); ("keyType", box keyType)])
  /\ fst (SearchAPIAccessKeys query w)
     = after (NerdGraph apiAccessKeySearch [("query", box query)])
  /\ fst (UpdateAPIAccessKeyMutation ukeys w)
     = after (NerdGraph apiAccessKeyUpdateKeys [("keys", box ukeys)])
  /\ fst (DeleteAPIAccessKeyMutation dkeys w)
     = after (NerdGraph apiAccessKeyDeleteKeys [("keys", box dkeys)]).
Proof.
  exact (single_call_server w id accountID policyID policy created updated ckeys ukeys
           dkeys keyID keyType query).
Qed.

(** ** Further properties: pagination *)

(** X4.  No request after a failure.  When the transport fails after pages
    that were served well, [ListPolicies] and [QueryPolicySearch] return at
    once: the failed request is the last one logged, there is no second
    attempt, and the replies that follow stay unconsumed. *)
Theorem no_request_after_failure (e : error) (rest : list Reply) (log0 : list Call)
    (ps qs : list (R * B)) (fuel : nat) (params : option ListPoliciesParams)
    (accountID : Z) (criteria : AlertsPoliciesSearchCriteriaInput) :
  Forall (fun p => pages.next_url parse p <> "") ps ->
  Forall (fun p => pages.next_cursor d_search p <> None) qs ->
  List.length ps < fuel ->
  List.length qs < fuel ->
  option_map fst
    (ListPolicies fuel params
       (httptest.Build_Server (pages.served ps ++ Err e :: rest) log0))
  = Some (httptest.Build_Server rest
            (log0 ++ map (pages.list_request params)
                       ("/alerts_policies.json" :: map (pages.next_url parse) ps)))
  /\
  option_map fst
    (QueryPolicySearch fuel accountID criteria
       (httptest.Build_Server (pages.served qs ++ Err e :: rest) log0))
  = Some (httptest.Build_Server rest
            (log0 ++ map (pages.search_request accountID criteria)
                       (None :: map (pages.next_cursor d_search) qs))).
Proof.
  intros Hps Hqs Hfuel Hqfuel. split.
  - unfold ListPolicies.
    rewrite (ListPolicies_for_failing params ps e rest log0 _ (Some []) fuel)
      by first [discriminate | assumption].
    reflexivity.
  - rewrite QueryPolicySearch_failing by assumption. reflexivity.
Qed.

Lemma ListPolicies_for_still_paging (params : option ListPoliciesParams) :
  forall (ps : list (R * B)) (rest : list Reply) (log0 : list Call)
         (url : string) (acc : slice Policy) (fuel : nat),
    url <> "" ->
    Forall (fun p => pages.next_url parse p <> "") ps ->
    fuel <= List.length ps ->
    ListPolicies_for fuel params url acc
      (httptest.Build_Server (pages.served ps ++ rest) log0)
    = None.
Proof.
  induction ps as [| p ps IH]; intros rest log0 url acc fuel Hurl Hall Hfuel.
  - simpl in Hfuel. replace fuel with 0 by lia.
    cbn [ListPolicies_for]. rewrite (eqb_empty_false _ Hurl). reflexivity.
  - destruct fuel as [| fuel].
    + cbn [ListPolicies_for]. rewrite (eqb_empty_false _ Hurl). reflexivity.
    + inversion Hall as [| ? ? Hp Hrest]; subst.
      cbn [app pages.served map]. rewrite ListPolicies_for_page by exact Hurl.
      change (map (fun p0 : R * B => Ok p0) ps) with (pages.served ps).
      apply IH; auto. simpl in Hfuel. lia.
Qed.

Lemma QueryPolicySearch_for_still_paging (accountID : Z)
    (params : AlertsPoliciesSearchCriteriaInput) :
  forall (ps : list (R * B)) (rest : list Reply) (log0 : list Call)
         (cursor : option string) (policies : slice ptr) (h : heap) (fuel : nat),
    Forall (fun p => pages.next_cursor d_search p <> None) ps ->
    fuel <= List.length ps ->
    QueryPolicySearch_for fuel accountID params cursor policies h
      (httptest.Build_Server (pages.served ps ++ rest) log0)
    = None.
Proof.
  induction ps as [| p ps IH]; intros rest log0 cursor policies h fuel Hall Hfuel.
  - simpl in Hfuel. replace fuel with 0 by lia. reflexivity.
  - destruct fuel as [| fuel]; [reflexivity |].
    inversion Hall as [| ? ? Hp Hrest]; subst.
    cbn [app pages.served map]. rewrite QueryPolicySearch_for_page. cbv zeta.
    destruct (pages.next_cursor d_search p) as [c |]; [| congruence].
    change (map (fun p0 : R * B => Ok p0) ps) with (pages.served ps).
    apply IH; auto. simpl in Hfuel. lia.
Qed.

(** X5.  The number of pages is not bounded.  As long as the pages carry a
    non-empty [Next] link, resp. a non-nil cursor, the two paginated methods
    go on asking: after as many turns of the loop as there are such pages
    (or fewer) neither has returned. *)
Theorem paging_is_unbounded (ps qs : list (R * B)) (rest : list Reply)
    (log0 : list Call) (fuel : nat) (params : option ListPoliciesParams)
    (accountID : Z) (criteria : AlertsPoliciesSearchCriteriaInput) :
  Forall (fun p => pages.next_url parse p <> "") ps ->
  Forall (fun p => pages.next_cursor d_search p <> None) qs ->
  fuel <= List.length ps ->
  fuel <= List.length qs ->
  ListPolicies fuel params (httptest.Build_Server (pages.served ps ++ rest) log0) = None
  /\
  QueryPolicySearch fuel accountID criteria
    (httptest.Build_Server (pages.served qs ++ rest) log0) = None.
Proof.
  intros Hps Hqs Hfuel Hqfuel. split.
  - unfold ListPolicies. apply ListPolicies_for_still_paging; auto. discriminate.
  - unfold QueryPolicySearch. apply QueryPolicySearch_for_still_paging; auto.
Qed.

(** X15.  The requests of a listing.  Whatever the transport replies, when
    [ListPolicies] returns, every request it has made is a [GET] without a
    body that carries the caller's parameters, the first of them goes to
    [/alerts_policies.json], and each took one reply off the script. *)
Theorem ListPolicies_requests (w w' : Server) (fuel : nat)
    (params : option ListPoliciesParams) (res : slice Policy) (err : option error) :
  ListPolicies fuel params w = Some (w', (res, err)) ->
  exists more : list string,
    httptest.log w'
    = httptest.log w ++ map (fun url => REST GET url (box params) None)
                          ("/alerts_policies.json" :: more) /\
    httptest.script w' = skipn (S (List.length more)) (httptest.script w).
Proof.
  intro H. unfold ListPolicies in H.
  destruct (ListPolicies_for_any params _ _ _ _ _ _ _ H)
    as [_ [urls [Hlog [Hscript Hfirst]]]].
  destruct Hfirst as [more ->]; [discriminate |].
  exists more. split; [exact Hlog | exact Hscript].
Qed.

(** X16.  An empty listing is not nil.  When the pages come without
    policies ([policies] missing or empty on every page), [ListPolicies]
    returns an empty, non-nil list with a nil error, to be told apart from the
    nil list that goes with an error. *)
Theorem ListPolicies_empty_listing (params : option ListPoliciesParams)
    (ps : list (R * B)) (last : R * B) (rest : list Reply) (log0 : list Call)
    (fuel : nat) :
  Forall (fun p => pages.next_url parse p <> "") ps ->
  pages.next_url parse last = "" ->
  List.length ps < fuel ->
  Forall (fun p => elems (Policies (d_list (snd p))) = []) (ps ++ [last]) ->
  option_map snd
    (ListPolicies fuel params
       (httptest.Build_Server (pages.served (ps ++ [last]) ++ rest) log0))
  = Some (Some [], None).
Proof.
  intros Hall Hlast Hfuel Hempty.
  rewrite ListPolicies_pages by assumption. cbn [option_map snd].
  assert (E : List.concat (map (pages.policies_of d_list) (ps ++ [last])) = []).
  { induction Hempty as [| p l Hp _ IH]; [reflexivity |].
    cbn [map List.concat]. unfold pages.policies_of at 1. rewrite Hp, IH. reflexivity. }
  rewrite E. reflexivity.
Qed.

(** ** Further properties: GraphQL variables *)


(** X12.  [QueryPolicySearch] is the exception.  Whatever the transport
    replies, every query it makes has the text [alertsPolicyQuerySearch] and
    carries the variables [accountID], [cursor] and [searchCriteria]; the
    text declares [accountID], [cursor] and [criteria].  The search criteria
    travel under a name the query does not declare, and the declared
    [$criteria] is given no value. *)
Theorem QueryPolicySearch_sends_undeclared_variable (w w' : Server) (fuel : nat)
    (accountID : Z) (criteria : AlertsPoliciesSearchCriteriaInput)
    (res : slice ptr) (cells : heap) (err : option error) :
  QueryPolicySearch fuel accountID criteria w = Some (w', ((res, cells), err)) ->
  observe.declared_variables alertsPolicyQuerySearch = ["accountID"; "cursor"; "criteria"]
  /\
  exists calls : list Call,
    calls <> [] /\
    httptest.log w' = httptest.log w ++ calls /\
    Forall (fun c =>
              observe.call_query c = alertsPolicyQuerySearch /\
              observe.call_variables c = ["accountID"; "cursor"; "searchCriteria"])
           calls.
Proof.
  intro H. split; [vm_compute; reflexivity |].
  unfold QueryPolicySearch in H.
  destruct (QueryPolicySearch_for_any accountID criteria _ _ _ _ _ _ _ _ _ H)
    as [_ [cursors [Hlog _]]].
  exists (map (pages.search_request accountID criteria) (None :: cursors)).
  split; [discriminate |]. split; [exact Hlog |].
  apply Forall_forall. intros c Hin. apply in_map_iff in Hin.
  destruct Hin as [cur [<- _]]. split; reflexivity.
Qed.

(** ** Further properties: the pointers of a search *)

Lemma store_same (h : heap) (p : ptr) (x y : QueryPolicy) :
  store (store h p x) p y = store h p y.
Proof.
  revert p. induction h as [| c h IH]; intros [| p]; simpl;
    try reflexivity. rewrite IH. reflexivity.
Qed.

Lemma store_last (h : heap) (x v : QueryPolicy) :
  store (h ++ [x]) (List.length h) v = h ++ [v].
Proof. induction h as [| c h IH]; simpl; [reflexivity | rewrite IH; reflexivity]. Qed.

Lemma QueryPolicySearch_range_spec (p : ptr) (page : list QueryPolicy) :
  forall (l : list ptr) (h : heap),
    QueryPolicySearch_range p page (Some l) h
    = (Some (l ++ repeat p (List.length page)),
       match page with
       | [] => h
       | _ => store h p (List.last page QueryPolicy_zero)
       end).
Proof.
  induction page as [| x page IH]; intros l h.
  - simpl. rewrite app_nil_r. reflexivity.
  - cbn [QueryPolicySearch_range]. rewrite append_Some. cbn [elems].
    rewrite IH. rewrite <- app_assoc. cbn [app List.length repeat].
    destruct page as [| y page]; [reflexivity |].
    rewrite store_same. reflexivity.
Qed.

Lemma search_page_spec (p : R * B) (l : list ptr) (h : heap) :
  pages.search_page d_search (Some l, h) p
  = (Some (l ++ repeat (List.length h) (List.length (pages.found_in d_search p))),
     h ++ [observe.last_found d_search p]).
Proof.
  unfold pages.search_page, observe.last_found. cbn [fst snd].
  rewrite QueryPolicySearch_range_spec.
  destruct (pages.found_in d_search p) as [| x page]; [reflexivity |].
  rewrite store_last. reflexivity.
Qed.

Lemma search_pages_spec (ps : list (R * B)) :
  forall (l : list ptr) (h : heap),
    fold_left (pages.search_page d_search) ps (Some l, h)
    = (Some (l ++ observe.pointers_from d_search (List.length h) ps),
       h ++ map (observe.last_found d_search) ps).
Proof.
  induction ps as [| p ps IH]; intros l h.
  - simpl. rewrite !app_nil_r. reflexivity.
  - cbn [fold_left]. rewrite search_page_spec, IH.
    rewrite length_app. cbn [List.length]. rewrite Nat.add_1_r.
    cbn [observe.pointers_from map]. rewrite <- !app_assoc. reflexivity.
Qed.

Lemma pointers_from_length (ps : list (R * B)) :
  forall base : nat,
    List.length (observe.pointers_from d_search base ps)
    = List.length (List.concat (map (pages.found_in d_search) ps)).
Proof.
  induction ps as [| p ps IH]; intro base; [reflexivity |].
  cbn [observe.pointers_from map List.concat].
  rewrite !length_app, repeat_length, IH. reflexivity.
Qed.

Lemma pointers_from_bound (ps : list (R * B)) :
  forall base : nat,
    Forall (fun p => base <= p < base + List.length ps)
      (observe.pointers_from d_search base ps).
Proof.
  induction ps as [| p ps IH]; intro base; [constructor |].
  cbn [observe.pointers_from List.length]. apply Forall_app. split.
  - apply Forall_forall. intros q Hq. apply repeat_spec in Hq. subst q. lia.
  - eapply Forall_impl; [| apply (IH (S base))]. cbn beta. intros q Hq. lia.
Qed.

Lemma deref_pointers_from (ps : list (R * B)) :
  forall h : heap,
    map (observe.deref (h ++ map (observe.last_found d_search) ps))
      (observe.pointers_from d_search (List.length h) ps)
    = List.concat
        (map (fun p => repeat (observe.last_found d_search p)
                         (List.length (pages.found_in d_search p))) ps).
Proof.
  induction ps as [| p ps IH]; intro h; [reflexivity |].
  cbn [observe.pointers_from map List.concat]. rewrite map_app. f_equal.
  - rewrite map_repeat. f_equal. unfold observe.deref. apply nth_middle.
  - specialize (IH (h ++ [observe.last_found d_search p])).
    rewrite length_app, <- app_assoc in IH. cbn [List.length app] in IH.
    rewrite Nat.add_1_r in IH. exact IH.
Qed.

(** X13.  A search returns one pointer per policy served.  Over pages as in
    C2, [QueryPolicySearch] returns as many pointers as the pages hold
    policies, allocates one cell per page, and every pointer is the address
    of one of these cells. *)
Theorem QueryPolicySearch_pointer_count (accountID : Z)
    (params : AlertsPoliciesSearchCriteriaInput)
    (ps : list (R * B)) (last : R * B) (rest : list Reply) (log0 : list Call)
    (fuel : nat) :
  Forall (fun p => pages.next_cursor d_search p <> None) ps ->
  pages.next_cursor d_search last = None ->
  List.length ps < fuel ->
  exists (pointers : list ptr) (cells : heap),
    option_map snd
      (QueryPolicySearch fuel accountID params
         (httptest.Build_Server (pages.served (ps ++ [last]) ++ rest) log0))
    = Some ((Some pointers, cells), None) /\
    List.length pointers
    = List.length (List.concat (map (pages.found_in d_search) (ps ++ [last]))) /\
    List.length cells = List.length (ps ++ [last]) /\
    Forall (fun p => p < List.length cells) pointers.
Proof.
  intros Hall Hlast Hfuel.
  rewrite QueryPolicySearch_pages by assumption. rewrite search_pages_spec.
  cbn [option_map snd app List.length].
  eexists. eexists. split; [reflexivity |].
  split; [apply pointers_from_length |].
  split; [apply length_map |].
  rewrite length_map. eapply Forall_impl; [| apply pointers_from_bound].
  cbn beta. intros q Hq. lia.
Qed.

(** X14.  The pointers of one page are one pointer.  Over pages as in C2, the
    policies that the returned pointers point to are, page by page, the last
    policy of the page as many times as the page holds policies: [&p] is the
    address of the one loop variable of the page's [range] statement.  The
    policies of a page other than its last one are not reachable from the
    result. *)
Theorem QueryPolicySearch_pointers_alias (accountID : Z)
    (params : AlertsPoliciesSearchCriteriaInput)
    (ps : list (R * B)) (last : R * B) (rest : list Reply) (log0 : list Call)
    (fuel : nat) :
  Forall (fun p => pages.next_cursor d_search p <> None) ps ->
  pages.next_cursor d_search last = None ->
  List.length ps < fuel ->
  exists (pointers : list ptr) (cells : heap),
    option_map snd
      (QueryPolicySearch fuel accountID params
         (httptest.Build_Server (pages.served (ps ++ [last]) ++ rest) log0))
    = Some ((Some pointers, cells), None) /\
    map (observe.deref cells) pointers
    = List.concat
        (map (fun p => repeat (observe.last_found d_search p)
                         (List.length (pages.found_in d_search p)))
           (ps ++ [last])).
Proof.
  intros Hall Hlast Hfuel.
  rewrite QueryPolicySearch_pages by assumption. rewrite search_pages_spec.
  cbn [option_map snd app].
  eexists. eexists. split; [reflexivity |].
  apply (deref_pointers_from (ps ++ [last]) []).
Qed.

(** ** Further properties: the URL of a policy *)

Lemma atoi_itoa (n : Z) : observe.atoi (itoa n) = Some n.
Proof.
  unfold observe.atoi, itoa.
  rewrite NilZero.isi.
  - cbn [option_map]. rewrite DecimalZ.of_to. reflexivity.
  - destruct n; cbn; try discriminate.
    intro H. injection H as H. exact (DecimalPos.Unsigned.to_uint_nonnil _ H).
  - destruct n; cbn; try discriminate.
    intro H. injection H as H. exact (DecimalPos.Unsigned.to_uint_nonnil _ H).
Qed.

Lemma itoa_inj (n m : Z) : itoa n = itoa m -> n = m.
Proof.
  intro H. apply (f_equal observe.atoi) in H. rewrite !atoi_itoa in H.
  injection H as H. exact H.
Qed.

Lemma string_length_app (s t : string) :
  String.length (s ++ t) = String.length s + String.length t.
Proof. induction s as [| c s IH]; simpl; [reflexivity | rewrite IH; reflexivity]. Qed.

Lemma string_app_inv_tail (t : string) :
  forall s s' : string, (s ++ t = s' ++ t)%string -> s = s'.
Proof.
  induction s as [| c s IH]; intros [| c' s'] H.
  - reflexivity.
  - exfalso. apply (f_equal String.length) in H.
    simpl in H. rewrite string_length_app in H. lia.
  - exfalso. apply (f_equal String.length) in H.
    simpl in H. rewrite string_length_app in H. lia.
  - simpl in H. injection H as -> H. f_equal. apply IH. exact H.
Qed.

Lemma policy_url_inj (n m : Z) :
  ("/alerts_policies/" ++ itoa n ++ ".json" = "/alerts_policies/" ++ itoa m ++ ".json")%string ->
  n = m.
Proof.
  intro H. cbn [String.append] in H. injection H as H.
  apply itoa_inj. apply (string_app_inv_tail ".json"). exact H.
Qed.

(** X7.  The URL tells the policy.  [UpdatePolicy] and [DeletePolicy] put the
    ID into the URL in decimal, so that it can be read back from it, and two
    calls go to the same URL only for the same ID. *)
Theorem policy_URL_determines_ID (w : Server) (policy other : Policy) (id id' : Z) :
  (exists digits : string,
      observe.atoi digits = Some (Policy_ID policy) /\
      map observe.call_url (httptest.log (fst (UpdatePolicy policy w)))
      = map observe.call_url (httptest.log w)
          ++ [Some ("/alerts_policies/" ++ digits ++ ".json")%string])
  /\
  (exists digits : string,
      observe.atoi digits = Some id /\
      map observe.call_url (httptest.log (fst (DeletePolicy id w)))
      = map observe.call_url (httptest.log w)
          ++ [Some ("/alerts_policies/" ++ digits ++ ".json")%string])
  /\
  (map observe.call_url (httptest.log (fst (UpdatePolicy policy w)))
   = map observe.call_url (httptest.log (fst (UpdatePolicy other w))) ->
   Policy_ID policy = Policy_ID other)
  /\
  (map observe.call_url (httptest.log (fst (DeletePolicy id w)))
   = map observe.call_url (httptest.log (fst (DeletePolicy id' w))) ->
   id = id').
Proof.
  assert (Hup : forall q : Policy,
             map observe.call_url (httptest.log (fst (UpdatePolicy q w)))
             = map observe.call_url (httptest.log w)
                 ++ [Some ("/alerts_policies/" ++ itoa (Policy_ID q) ++ ".json")%string]).
  { intro q. next_reply w; cbn [UpdatePolicy]; cbn; rewrite map_app; reflexivity. }
  assert (Hdel : forall n : Z,
             map observe.call_url (httptest.log (fst (DeletePolicy n w)))
             = map observe.call_url (httptest.log w)
                 ++ [Some ("/alerts_policies/" ++ itoa n ++ ".json")%string]).
  { intro n. next_reply w; cbn [DeletePolicy]; cbn; rewrite map_app; reflexivity. }
  refine (conj _ (conj _ (conj _ _))).
  - exists (itoa (Policy_ID policy)). split; [apply atoi_itoa | apply Hup].
  - exists (itoa id). split; [apply atoi_itoa | apply Hdel].
  - rewrite !Hup. intro H. apply app_inv_head in H.
    apply policy_url_inj. congruence.
  - rewrite !Hdel. intro H. apply app_inv_head in H.
    apply policy_url_inj. congruence.
Qed.

End Scripted.

(* ================================================================== *)
(** * Further properties, for any client *)

(** X6.  A lookup reads the whole listing.  For every client and every ID,
    [GetPolicy] leaves the world as [ListPolicies(nil)] leaves it: it asks
    for every page before it looks for the ID, also when the policy is on
    the first page, and it sends no name filter. *)
Theorem GetPolicy_requests_whole_listing {c : Alerts} (fuel : nat) (id : Z)
    (w : @World (@alerts.client c)) :
  option_map fst (GetPolicy fuel id w) = option_map fst (ListPolicies fuel None w).
Proof.
  unfold GetPolicy.
  destruct (ListPolicies fuel None w) as [[w' [policies [e |]]] |]; try reflexivity.
  destruct (GetPolicy_range id (elems policies)); reflexivity.
Qed.

(** ** The aggregated message of mutation errors *)

(** X8.  The message is built entry by entry: no entries give the empty
    text, whether the array is nil or empty, and the message of two arrays
    one after the other is the two messages one after the other. *)
Theorem formatAPIAccessKeyMutationErrors_app (errs more : list ApiAccessKeyError) :
  formatAPIAccessKeyMutationErrors None = "" /\
  formatAPIAccessKeyMutationErrors (Some []) = "" /\
  formatAPIAccessKeyMutationErrors (Some (errs ++ more))
  = (formatAPIAccessKeyMutationErrors (Some errs)
       ++ formatAPIAccessKeyMutationErrors (Some more))%string.
Proof.
  split; [reflexivity |]. split; [reflexivity |].
  rewrite !formatAPIAccessKeyMutationErrors_lines. cbn [elems].
  rewrite map_app. apply lines_app.
Qed.

Lemma Sprintf_line_length (e : ApiAccessKeyError) :
  String.length (Sprintf_line e)
  = String.length (ApiAccessKeyError_Type e)
    + String.length (ApiAccessKeyError_Message e) + 3.
Proof.
  unfold Sprintf_line. rewrite !string_length_app. simpl. lia.
Qed.

(** X9.  The length of the message: each entry adds its type, its message
    and three more characters (colon, blank, line feed).  With at least one
    entry the message is therefore not empty. *)
Theorem formatAPIAccessKeyMutationErrors_length (errors : slice ApiAccessKeyError) :
  String.length (formatAPIAccessKeyMutationErrors errors)
  = list_sum (map (fun e => String.length (ApiAccessKeyError_Type e)
                            + String.length (ApiAccessKeyError_Message e) + 3)
                (elems errors))
  /\ (elems errors <> [] -> formatAPIAccessKeyMutationErrors errors <> "").
Proof.
  assert (Hlen : String.length (formatAPIAccessKeyMutationErrors errors)
                 = list_sum (map (fun e => String.length (ApiAccessKeyError_Type e)
                                           + String.length (ApiAccessKeyError_Message e) + 3)
                               (elems errors))).
  { rewrite formatAPIAccessKeyMutationErrors_lines.
    induction (elems errors) as [| e l IH]; [reflexivity |].
    cbn [map fold_right list_sum].
    rewrite string_length_app, Sprintf_line_length, IH. reflexivity. }
  split; [exact Hlen |].
  intros Hne Hempty. rewrite Hempty in Hlen.
  destruct (elems errors) as [| e l]; [congruence |].
  cbn in Hlen. lia.
Qed.

(** X10.  The message does not tell the entries apart.  The line feed that
    ends an entry and the colon that separates type from message may occur
    inside a message as well: an array of one entry and an array of two can
    give the same text. *)
Theorem formatAPIAccessKeyMutationErrors_not_injective :
  exists one two : list ApiAccessKeyError,
    List.length one = 1 /\ List.length two = 2 /\
    formatAPIAccessKeyMutationErrors (Some one)
    = formatAPIAccessKeyMutationErrors (Some two).
Proof.
  exists [ {| ApiAccessKeyError_Message :=
                ("denied" ++ String (ascii_of_nat 10) "INVALID: bad name")%string;
              ApiAccessKeyError_Type := "FORBIDDEN" |} ],
         [ {| ApiAccessKeyError_Message := "denied"; ApiAccessKeyError_Type := "FORBIDDEN" |};
           {| ApiAccessKeyError_Message := "bad name"; ApiAccessKeyError_Type := "INVALID" |} ].
  repeat split.
Qed.

(* ================================================================== *)
(** * The properties at work on the test data *)

Module runs.

Import testdata.

Example itoa_42 : itoa 42 = "42".
Proof. reflexivity. Qed.

Example itoa_negative : itoa (-5) = "-5".
Proof. reflexivity. Qed.

Example itoa_zero : itoa 0 = "0".
Proof. reflexivity. Qed.

(** Two pages are listed with two requests, the second to the first page's
    link. *)
Lemma ListPolicies_concatenates_pages_witness :
  Forall (fun p => pages.next_url parse p <> "") [page1] /\
  pages.next_url parse page2 = "" /\
  ListPolicies (a := alerts_client) 2 None (server [Ok page1; Ok page2])
  = Some (httptest.Build_Server []
            [pages.list_request None "/alerts_policies.json";
             pages.list_request None "/alerts_policies.json?page=2"],
          (Some [policy 1 "a"; policy 2 "b"; policy 2 "again"; policy 3 "c"], None)).
Proof.
  assert (H1 : Forall (fun p => pages.next_url parse p <> "") [page1])
    by (repeat constructor; discriminate).
  split; [exact H1 |]. split; [reflexivity |].
  apply (ListPolicies_concatenates_pages B R parse d_list d_policy d_search d_create
           d_update d_query d_delete None [page1] page2 [] [] 2 H1 eq_refl).
  simpl; lia.
Defined.

(** A search over two pages makes two queries, with the nil cursor and then
    with the first page's cursor.  The two pointers taken from the first page
    are the same cell, which holds that page's last policy. *)
Lemma QueryPolicySearch_consumes_cursors_witness :
  Forall (fun p => pages.next_cursor d_search p <> None) [found1] /\
  pages.next_cursor d_search found2 = None /\
  QueryPolicySearch (a := alerts_client) 2 7 criteria (server [Ok found1; Ok found2])
  = Some (httptest.Build_Server []
            [pages.search_request 7 criteria None;
             pages.search_request 7 criteria (Some "abc")],
          ((Some [0; 0; 1], [query_policy 2 "b"; query_policy 3 "c"]), None)).
Proof.
  assert (H1 : Forall (fun p => pages.next_cursor d_search p <> None) [found1])
    by (repeat constructor; discriminate).
  split; [exact H1 |]. split; [reflexivity |].
  apply (QueryPolicySearch_consumes_cursors B R parse d_list d_policy d_search d_create
           d_update d_query d_delete 7 criteria [found1] found2 [] [] 2 H1 eq_refl).
  simpl; lia.
Defined.

(** C2 as stated fails: a page that returns the empty string as its cursor
    does not end the search.  The method goes on to query with that cursor
    and consumes the next reply; it does not return after the first page. *)
Lemma QueryPolicySearch_empty_cursor_goes_on :
  pages.next_cursor d_search found_empty_cursor = Some "" /\
  QueryPolicySearch (a := alerts_client) 2 7 criteria
    (server [Ok found_empty_cursor; Ok found2])
  = Some (httptest.Build_Server []
            [pages.search_request 7 criteria None;
             pages.search_request 7 criteria (Some "")],
          ((Some [0; 1], [query_policy 1 "a"; query_policy 3 "c"]), None)) /\
  QueryPolicySearch (a := alerts_client) 2 7 criteria
    (server [Ok found_empty_cursor; Ok found2])
  <> Some (httptest.Build_Server [Ok found2]
             [pages.search_request 7 criteria None],
           ((Some [0], [query_policy 1 "a"]), None)).
Proof.
  split; [reflexivity |]. split; [reflexivity |].
  intro H. apply (f_equal (option_map (fun x => List.length (httptest.log (fst x))))) in H.
  cbn in H. discriminate H.
Qed.

(** No policy of the two pages has ID 9; ID 2 is found. *)
Lemma GetPolicy_not_found_iff_no_match_witness :
  exists (w' : httptest.Server B R) (r : option Policy * option error),
    GetPolicy (a := alerts_client) 2 9 (server [Ok page1; Ok page2]) = Some (w', r) /\
    r = (None, Some (NotFound "no alert policy found for id 9")).
Proof.
  assert (H1 : Forall (fun p => pages.next_url parse p <> "") [page1])
    by (repeat constructor; discriminate).
  assert (H3 : List.length [page1] < 2) by (simpl; lia).
  destruct (GetPolicy_not_found_iff_no_match B R parse d_list d_policy d_search d_create
              d_update d_query d_delete 9 [page1] page2 [] [] 2 H1 eq_refl H3)
    as [w' [r [E [_ [Hnone _]]]]].
  exists w', r. split; [exact E |].
  apply Hnone. intros p Hin.
  cbn in Hin. intuition (subst; discriminate).
Defined.

(** ID 2 occurs on both pages; the policy of the first page is returned. *)
Lemma GetPolicy_returns_first_match_witness :
  GetPolicy (a := alerts_client) 2 2 (server [Ok page1; Ok page2])
  = Some (httptest.Build_Server []
            [pages.list_request None "/alerts_policies.json";
             pages.list_request None "/alerts_policies.json?page=2"],
          (Some (policy 2 "b"), None)) /\
  Policy_ID (policy 2 "b") = 2%Z /\
  exists before after,
    [policy 1 "a"; policy 2 "b"; policy 2 "again"; policy 3 "c"]
    = before ++ policy 2 "b" :: after /\
    (forall q, In q before -> Policy_ID q <> 2%Z).
Proof.
  assert (H1 : Forall (fun p => pages.next_url parse p <> "") [page1])
    by (repeat constructor; discriminate).
  assert (H3 : List.length [page1] < 2) by (simpl; lia).
  split; [reflexivity |].
  apply (GetPolicy_returns_first_match B R parse d_list d_policy d_search d_create
           d_update d_query d_delete 2 [page1] page2 [] [] 2 _ (policy 2 "b")
           H1 eq_refl H3 eq_refl).
Defined.

(** Updating policy 42: the URL, the body sent and the policy returned. *)
Lemma CreatePolicy_UpdatePolicy_round_trip_witness :
  UpdatePolicy (a := alerts_client) (policy 42 "renamed") (server [Ok echo])
  = (httptest.Build_Server []
       [REST PUT "/alerts_policies/42.json" None
          (box {| alertPolicyRequestBody_Policy := policy 42 "renamed" |})],
     (Some (policy 42 "renamed"), None)).
Proof.
  exact (proj1 (proj2 (CreatePolicy_UpdatePolicy_round_trip B R parse d_list d_policy
                         d_search d_create d_update d_query d_delete
                         (policy 42 "renamed") "" (JPolicy (policy 42 "renamed")) [] []))).
Defined.

(** The server reports the deleted ID 99; the caller gets the zero value. *)
Lemma DeletePolicyMutation_discards_response_witness :
  AlertsPolicyDelete_ID (d_delete (snd deleted99)) = 99%Z /\
  snd (DeletePolicyMutation (a := alerts_client) 7 99 (server [Ok deleted99]))
  = (Some QueryPolicy_zero, None).
Proof.
  split; [reflexivity |].
  exact (f_equal snd (DeletePolicyMutation_discards_response B R parse d_list d_policy
                        d_search d_create d_update d_query d_delete 7 99
                        "" (JPolicyDelete 99) [] [])).
Defined.

(** Two mutation errors give one error of two lines, and no keys, although
    the response holds a created key. *)
Lemma mutation_errors_aggregated_witness :
  two_errors <> [] /\
  snd (CreateAPIAccessKeysMutation (a := keys_client) "keys" (server [Ok create_failed]))
  = (None, Some (errorString
                   ("FORBIDDEN: no access" ++ String (ascii_of_nat 10) ""
                      ++ "INVALID: bad name" ++ String (ascii_of_nat 10) "")%string)).
Proof.
  assert (H : two_errors <> []) by discriminate.
  split; [exact H |].
  exact (f_equal snd
           (proj1 (mutation_errors_aggregated B R schema format k_create k_update k_get
                     k_search k_delete "" (snd create_failed) [] [] two_errors H)
              "keys" eq_refl)).
Defined.

(** A key response without an [errors] array yields the key. *)
Lemma key_queries_check_GraphQL_errors_witness :
  snd (GetAPIAccessKeyMutation (a := keys_client) "1" "USER" (server [Ok key_without_errors]))
  = (Some (key "1"), None).
Proof.
  exact (f_equal snd
           (proj1 (proj2 (key_queries_check_GraphQL_errors B R schema format k_create
                            k_update k_get k_search k_delete "1" "USER" "query" ""
                            (snd key_without_errors) [] []))
              eq_refl)).
Defined.

(** An empty [errors] array is an error for the key query, and a success for
    the create mutation. *)
Lemma error_checks_differ_on_empty_array_witness :
  snd (GetAPIAccessKeyMutation (a := keys_client) "1" "USER"
         (server [Ok key_with_empty_errors]))
  = (None, Some (errorString "")) /\
  snd (CreateAPIAccessKeysMutation (a := keys_client) "keys"
         (server [Ok created_with_empty_errors]))
  = (Some [key "1"], None).
Proof.
  split.
  - exact (proj1 (error_checks_differ_on_empty_array B R schema format k_create
                    k_update k_get k_search k_delete "1" "USER" "query" "keys" "keys"
                    "keys" "" (snd key_with_empty_errors) [] [])
             eq_refl).
  - exact (proj1 (proj2 (proj2 (error_checks_differ_on_empty_array B R schema format
                    k_create k_update k_get k_search k_delete "1" "USER" "query" "keys"
                    "keys" "keys" "" (snd created_with_empty_errors) [] [])))
             eq_refl).
Defined.

(** A time-out on the second page: the first page's policies are dropped. *)
Lemma transport_error_or_typed_result_witness :
  Forall (fun p => pages.next_url parse p <> "") [page1] /\
  pages.next_url parse page2 = "" /\
  Forall (fun p => pages.next_cursor d_search p <> None) [found1] /\
  pages.next_cursor d_search found2 = None /\
  option_map snd
    (ListPolicies (a := alerts_client) 2 None (server [Ok page1; Err timeout]))
  = Some (None, Some timeout) /\
  option_map snd
    (ListPolicies (a := alerts_client) 2 None (server [Ok page1; Ok page2]))
  = Some (Some [policy 1 "a"; policy 2 "b"; policy 2 "again"; policy 3 "c"], None).
Proof.
  assert (H1 : Forall (fun p => pages.next_url parse p <> "") [page1])
    by (repeat constructor; discriminate).
  assert (H2 : Forall (fun p => pages.next_cursor d_search p <> None) [found1])
    by (repeat constructor; discriminate).
  assert (H3 : List.length [page1] < 2) by (simpl; lia).
  assert (H4 : List.length [found1] < 2) by (simpl; lia).
  pose proof (transport_error_or_typed_result B R parse d_list d_policy d_search
                d_create d_update d_query d_delete schema format k_create k_update
                k_get k_search k_delete
                timeout "" (JPolicy (policy 1 "a")) [] [] [page1] page2 [found1] found2 2
                None 2 7 2 (policy 1 "a")
                {| QueryPolicyCreateInput_QueryPolicyInput :=
                     {| QueryPolicyInput_IncidentPreference := "PER_POLICY";
                        QueryPolicyInput_Name := "a" |} |}
                {| QueryPolicyUpdateInput_QueryPolicyInput :=
                     {| QueryPolicyInput_IncidentPreference := "PER_POLICY";
                        QueryPolicyInput_Name := "a" |} |}
                criteria "keys" "keys" "keys" "1" "USER" "query"
                H1 eq_refl H2 eq_refl H3 H4) as [Hfail Hok].
  split; [exact H1 |]. split; [reflexivity |]. split; [exact H2 |].
  split; [reflexivity |].
  split; [exact (proj1 Hfail) | exact (proj1 Hok)].
Defined.

(** ** The further properties *)

(** A listing cut short by a time-out returns nil and the error. *)
Lemma result_nil_iff_error_witness :
  ListPolicies (a := alerts_client) 2 None (server [Ok page1; Err timeout])
  = Some (httptest.Build_Server []
            [pages.list_request None "/alerts_policies.json";
             pages.list_request None "/alerts_policies.json?page=2"],
          (None, Some timeout)) /\
  ((None : slice Policy) = None <-> Some timeout <> None).
Proof.
  assert (E : ListPolicies (a := alerts_client) 2 None (server [Ok page1; Err timeout])
              = Some (httptest.Build_Server []
                        [pages.list_request None "/alerts_policies.json";
                         pages.list_request None "/alerts_policies.json?page=2"],
                      (None, Some timeout))) by reflexivity.
  split; [exact E |].
  exact (proj1 (result_nil_iff_error B R parse d_list d_policy d_search d_create d_update
                  d_query d_delete schema format k_create k_update k_get k_search k_delete
                  (server [Ok page1; Err timeout]) 2 None 2 7 2 (policy 1 "a")
                  {| QueryPolicyCreateInput_QueryPolicyInput :=
                       {| QueryPolicyInput_IncidentPreference := "PER_POLICY";
                          QueryPolicyInput_Name := "a" |} |}
                  {| QueryPolicyUpdateInput_QueryPolicyInput :=
                       {| QueryPolicyInput_IncidentPreference := "PER_POLICY";
                          QueryPolicyInput_Name := "a" |} |}
                  criteria "1" "USER")
           _ _ _ E).
Defined.

(** No keys and no errors in the response: nil keys, nil error. *)
Lemma key_lists_may_be_nil_without_error_witness :
  snd (CreateAPIAccessKeysMutation (a := keys_client) "keys" (server [Ok no_keys_no_errors]))
  = (None, None).
Proof.
  exact (proj1 (proj2 (key_lists_may_be_nil_without_error B R schema format k_create
                         k_update k_get k_search k_delete
                         (server []) "keys" "keys" "keys" "query"
                         "" (snd no_keys_no_errors) [] []))
           eq_refl eq_refl).
Defined.

(** The time-out on the second page ends the listing and the search. *)
Lemma no_request_after_failure_witness :
  Forall (fun p => pages.next_url parse p <> "") [page1] /\
  Forall (fun p => pages.next_cursor d_search p <> None) [found1] /\
  option_map fst
    (ListPolicies (a := alerts_client) 2 None
       (server [Ok page1; Err timeout; Ok page2]))
  = Some (httptest.Build_Server [Ok page2]
            [pages.list_request None "/alerts_policies.json";
             pages.list_request None "/alerts_policies.json?page=2"]).
Proof.
  assert (H1 : Forall (fun p => pages.next_url parse p <> "") [page1])
    by (repeat constructor; discriminate).
  assert (H2 : Forall (fun p => pages.next_cursor d_search p <> None) [found1])
    by (repeat constructor; discriminate).
  assert (H3 : List.length [page1] < 2) by (simpl; lia).
  assert (H4 : List.length [found1] < 2) by (simpl; lia).
  split; [exact H1 |]. split; [exact H2 |].
  exact (proj1 (no_request_after_failure B R parse d_list d_policy d_search d_create
                  d_update d_query d_delete timeout [Ok page2] [] [page1] [found1] 2
                  None 7 criteria H1 H2 H3 H4)).
Defined.

(** Two pages that link on: two turns of the loop do not suffice. *)
Lemma paging_is_unbounded_witness :
  Forall (fun p => pages.next_url parse p <> "") [page1; page1] /\
  Forall (fun p => pages.next_cursor d_search p <> None) [found1; found_empty_cursor] /\
  ListPolicies (a := alerts_client) 2 None (server [Ok page1; Ok page1; Ok page2]) = None /\
  QueryPolicySearch (a := alerts_client) 2 7 criteria
    (server [Ok found1; Ok found_empty_cursor; Ok found2]) = None.
Proof.
  assert (H1 : Forall (fun p => pages.next_url parse p <> "") [page1; page1])
    by (repeat constructor; discriminate).
  assert (H2 : Forall (fun p => pages.next_cursor d_search p <> None)
                 [found1; found_empty_cursor])
    by (repeat constructor; discriminate).
  assert (H3 : 2 <= List.length [page1; page1]) by (simpl; lia).
  assert (H4 : 2 <= List.length [found1; found_empty_cursor]) by (simpl; lia).
  split; [exact H1 |]. split; [exact H2 |].
  split.
  - exact (proj1 (paging_is_unbounded B R parse d_list d_policy d_search d_create
                    d_update d_query d_delete [page1; page1] [found1; found_empty_cursor]
                    [Ok page2] [] 2 None 7 criteria H1 H2 H3 H4)).
  - exact (proj2 (paging_is_unbounded B R parse d_list d_policy d_search d_create
                    d_update d_query d_delete [page1; page1] [found1; found_empty_cursor]
                    [Ok found2] [] 2 None 7 criteria H1 H2 H3 H4)).
Defined.

(** The URLs of policies 42 and 43 differ. *)
Lemma policy_URL_determines_ID_witness :
  observe.atoi "42" = Some 42%Z /\
  map observe.call_url
    (httptest.log (fst (DeletePolicy (a := alerts_client) 42 (server [Ok echo]))))
  = [Some "/alerts_policies/42.json"] /\
  map observe.call_url
    (httptest.log (fst (DeletePolicy (a := alerts_client) 42 (server [Ok echo]))))
  <> map observe.call_url
       (httptest.log (fst (DeletePolicy (a := alerts_client) 43 (server [Ok echo])))).
Proof.
  split; [reflexivity |]. split; [reflexivity |].
  intro H.
  pose proof (proj2 (proj2 (proj2 (policy_URL_determines_ID B R parse d_list d_policy
                                     d_search d_create d_update d_query d_delete
                                     (server [Ok echo]) (policy 42 "a") (policy 42 "b")
                                     42 43))) H) as E.
  discriminate E.
Defined.

(** Two errors: a message of 39 characters, not empty. *)
Lemma formatAPIAccessKeyMutationErrors_length_witness :
  elems (Some two_errors) <> [] /\
  String.length (formatAPIAccessKeyMutationErrors (Some two_errors)) = 39 /\
  formatAPIAccessKeyMutationErrors (Some two_errors) <> "".
Proof.
  assert (H : elems (Some two_errors) <> []) by discriminate.
  split; [exact H |]. split; [reflexivity |].
  exact (proj2 (formatAPIAccessKeyMutationErrors_length (Some two_errors)) H).
Defined.

(** The two queries of a search over two pages. *)
Lemma QueryPolicySearch_sends_undeclared_variable_witness :
  observe.declared_variables alertsPolicyQuerySearch = ["accountID"; "cursor"; "criteria"] /\
  exists calls : list Call,
    calls <> [] /\
    httptest.log (httptest.Build_Server (B := B) (R := R) []
                    [pages.search_request 7 criteria None;
                     pages.search_request 7 criteria (Some "abc")])
    = httptest.log (server [Ok found1; Ok found2]) ++ calls /\
    Forall (fun c =>
              observe.call_query c = alertsPolicyQuerySearch /\
              observe.call_variables c = ["accountID"; "cursor"; "searchCriteria"])
           calls.
Proof.
  exact (QueryPolicySearch_sends_undeclared_variable B R parse d_list d_policy d_search
           d_create d_update d_query d_delete
           (server [Ok found1; Ok found2]) _ 2 7 criteria _ _ _ eq_refl).
Defined.

(** Three policies on two pages: three pointers into two cells. *)
Lemma QueryPolicySearch_pointer_count_witness :
  exists (pointers : list ptr) (cells : heap),
    option_map snd
      (QueryPolicySearch (a := alerts_client) 2 7 criteria (server [Ok found1; Ok found2]))
    = Some ((Some pointers, cells), None) /\
    List.length pointers = 3 /\
    List.length cells = 2 /\
    Forall (fun p => p < List.length cells) pointers.
Proof.
  assert (H1 : Forall (fun p => pages.next_cursor d_search p <> None) [found1])
    by (repeat constructor; discriminate).
  assert (H3 : List.length [found1] < 2) by (simpl; lia).
  exact (QueryPolicySearch_pointer_count B R parse d_list d_policy d_search d_create
           d_update d_query d_delete 7 criteria [found1] found2 [] [] 2 H1 eq_refl H3).
Defined.

(** The first page holds policies 1 and 2; both its pointers show policy 2. *)
Lemma QueryPolicySearch_pointers_alias_witness :
  exists (pointers : list ptr) (cells : heap),
    option_map snd
      (QueryPolicySearch (a := alerts_client) 2 7 criteria (server [Ok found1; Ok found2]))
    = Some ((Some pointers, cells), None) /\
    map (observe.deref cells) pointers
    = [query_policy 2 "b"; query_policy 2 "b"; query_policy 3 "c"].
Proof.
  assert (H1 : Forall (fun p => pages.next_cursor d_search p <> None) [found1])
    by (repeat constructor; discriminate).
  assert (H3 : List.length [found1] < 2) by (simpl; lia).
  exact (QueryPolicySearch_pointers_alias B R parse d_list d_policy d_search d_create
           d_update d_query d_delete 7 criteria [found1] found2 [] [] 2 H1 eq_refl H3).
Defined.

(** The two requests of a listing over two pages. *)
Lemma ListPolicies_requests_witness :
  exists more : list string,
    [pages.list_request None "/alerts_policies.json";
     pages.list_request None "/alerts_policies.json?page=2"]
    = [] ++ map (fun url => REST GET url (box (None : option ListPoliciesParams)) None)
              ("/alerts_policies.json" :: more) /\
    @nil (httptest.Reply B R)
    = skipn (S (List.length more)) [Ok page1; Ok page2].
Proof.
  exact (ListPolicies_requests B R parse d_list d_policy d_search d_create d_update
           d_query d_delete (server [Ok page1; Ok page2])
           (httptest.Build_Server []
              [pages.list_request None "/alerts_policies.json";
               pages.list_request None "/alerts_policies.json?page=2"])
           2 None _ _ eq_refl).
Defined.

(** Two pages without policies: an empty list that is not nil. *)
Lemma ListPolicies_empty_listing_witness :
  Forall (fun p => elems (Policies (d_list (snd p))) = [])
    [page_without_policies; page_with_no_policies] /\
  option_map snd
    (ListPolicies (a := alerts_client) 2 None
       (server [Ok page_without_policies; Ok page_with_no_policies]))
  = Some (Some [], None).
Proof.
  assert (H1 : Forall (fun p => pages.next_url parse p <> "") [page_without_policies])
    by (repeat constructor; discriminate).
  assert (H3 : List.length [page_without_policies] < 2) by (simpl; lia).
  assert (H4 : Forall (fun p => elems (Policies (d_list (snd p))) = [])
                 ([page_without_policies] ++ [page_with_no_policies]))
    by (repeat constructor).
  split; [exact H4 |].
  exact (ListPolicies_empty_listing B R parse d_list d_policy d_search d_create d_update
           d_query d_delete None [page_without_policies] page_with_no_policies [] [] 2
           H1 eq_refl H3 H4).
Defined.

End runs.
